(** * podman/manage_podman.py: the container fleet controller

    A shallow embedding of [src/podman/manage_podman.py] and the
    properties of its operations.

    The script shells out to [sudo podman ...] and logs what it does.
    Both effects are kept: a computation runs against a container
    runtime (any deterministic, possibly stateful runtime) and emits a
    chronological trace of the processes it spawned and the log records
    it produced.  The script catches nothing.  Two exceptions depend on
    what the runtime prints and are modelled: the [UnicodeDecodeError]
    of [bytes.decode("utf-8")], and the [ValueError] that
    [subprocess.run] raises for an argument with an embedded null
    character, which a listed container name can hold.  The environment
    is taken to be sound: [sudo] can be executed, so a process whose
    arguments are well formed is created, and the filesystem encoding is
    UTF-8, so every decoded string can be passed as an argument. *)

From Stdlib Require Import String Ascii NArith ZArith Bool List Lia.
From Stdlib.Strings Require Import Byte.
Import ListNotations.

(** ** Python values: [bytes] and [str] *)

Module Py.

(** [bytes] is a sequence of octets, [str] a sequence of Unicode code
    points. *)
Definition bytes := list byte.
Definition char := N.
Definition str := list char.

(** A source literal ["..."]; every literal of the script is ASCII, so
    a character's code point is its ASCII code. *)
Definition lit (s : string) : str := map N_of_ascii (list_ascii_of_string s).

(** A bytes literal [b"..."]. *)
Definition blit (s : string) : bytes := list_byte_of_string s.

(** The character ["\n"] and the octet [b"\n"]. *)
Definition LF : char := 10%N.
Definition bLF : byte := x0a.

(** Truth value of a [bytes] object, as tested by [if result.stderr:]. *)
Definition bytes_bool (b : bytes) : bool :=
  match b with
  | [] => false
  | _ :: _ => true
  end.

(** Truth value of a list, as tested by [if not containers:]. *)
Definition list_bool {A} (l : list A) : bool :=
  match l with
  | [] => false
  | _ :: _ => true
  end.

(** *** [bytes.decode("utf-8")]

    The strict decoder: the well-formed byte sequences of the Unicode
    standard (no overlong forms, no surrogates, nothing above U+10FFFF);
    [None] stands for [UnicodeDecodeError]. *)

Local Open Scope N_scope.

Definition in_range (lo hi n : N) : bool := (lo <=? n) && (n <=? hi).

(** Payload of a continuation byte [10xxxxxx]. *)
Definition cont (n : N) : N := n - 0x80.

Fixpoint decode_utf8 (bs : bytes) : option str :=
  match bs with
  | [] => Some []
  | b0 :: t0 =>
    let n0 := Byte.to_N b0 in
    if n0 <? 0x80 then option_map (cons n0) (decode_utf8 t0)
    else if in_range 0xC2 0xDF n0 then
      match t0 with
      | b1 :: t1 =>
        let n1 := Byte.to_N b1 in
        if in_range 0x80 0xBF n1
        then option_map (cons ((n0 - 0xC0) * 64 + cont n1)) (decode_utf8 t1)
        else None
      | _ => None
      end
    else if in_range 0xE0 0xEF n0 then
      match t0 with
      | b1 :: b2 :: t2 =>
        let n1 := Byte.to_N b1 in
        let n2 := Byte.to_N b2 in
        let lo1 := if n0 =? 0xE0 then 0xA0 else 0x80 in
        let hi1 := if n0 =? 0xED then 0x9F else 0xBF in
        if in_range lo1 hi1 n1 && in_range 0x80 0xBF n2
        then option_map
               (cons ((n0 - 0xE0) * 4096 + cont n1 * 64 + cont n2))
               (decode_utf8 t2)
        else None
      | _ => None
      end
    else if in_range 0xF0 0xF4 n0 then
      match t0 with
      | b1 :: b2 :: b3 :: t3 =>
        let n1 := Byte.to_N b1 in
        let n2 := Byte.to_N b2 in
        let n3 := Byte.to_N b3 in
        let lo1 := if n0 =? 0xF0 then 0x90 else 0x80 in
        let hi1 := if n0 =? 0xF4 then 0x8F else 0xBF in
        if in_range lo1 hi1 n1 && in_range 0x80 0xBF n2
           && in_range 0x80 0xBF n3
        then option_map
               (cons ((n0 - 0xF0) * 262144 + cont n1 * 4096
                      + cont n2 * 64 + cont n3))
               (decode_utf8 t3)
        else None
      | _ => None
      end
    else None
  end.

(** *** [str.split(sep)] for a one-character separator

    The result always has one more element than [s] has separators;
    in particular the split of the empty string is the one-element
    list of the empty string. *)
Fixpoint split (sep : char) (s : str) : list str :=
  match s with
  | [] => [[]]
  | c :: s' =>
    if c =? sep then [] :: split sep s'
    else match split sep s' with
         | [] => [[c]]
         | w :: ws => (c :: w) :: ws
         end
  end.

(** The slice [l[:-1]]: everything but the last element, and the empty
    list for the empty list. *)
Definition slice_to_minus_1 {A} (l : list A) : list A := removelast l.

(** *** [str.strip()]

    With no argument, [strip] removes the characters for which
    [str.isspace] holds from both ends. *)
Definition isspace (c : char) : bool :=
  in_range 0x09 0x0D c || in_range 0x1C 0x20 c
  || (c =? 0x85) || (c =? 0xA0) || (c =? 0x1680)
  || in_range 0x2000 0x200A c
  || (c =? 0x2028) || (c =? 0x2029) || (c =? 0x202F)
  || (c =? 0x205F) || (c =? 0x3000).

Fixpoint lstrip (s : str) : str :=
  match s with
  | [] => []
  | c :: s' => if isspace c then lstrip s' else s
  end.

Definition rstrip (s : str) : str := rev (lstrip (rev s)).

Definition strip (s : str) : str := rstrip (lstrip s).

(** A string is trimmed when neither its first nor its last character
    is whitespace. *)
Definition starts_with_space (s : str) : bool :=
  match s with
  | [] => false
  | c :: _ => isspace c
  end.

Definition ends_with_space (s : str) : bool := starts_with_space (rev s).

Definition is_trimmed (s : str) : bool :=
  negb (starts_with_space s) && negb (ends_with_space s).

(** The text the runtime prints for a listing: each name followed by a
    newline. *)
Definition lines (names : list str) : str :=
  concat (map (fun n => n ++ [LF]) names).

End Py.

Import Py.

(** ** Effects: spawned processes, log records, exceptions *)

(** A [pathlib.Path], as the sequence of its parts; [p / name] appends
    a part. *)
Definition Path := list str.
Definition path_div (p : Path) (name : str) : Path := p ++ [name].

(** An element of the argument tuple given to [subprocess.run]. *)
Inductive arg :=
| A (s : str)
| P (p : Path).

Definition argv := list arg.

(** What a finished child process leaves behind.  The script never
    passes [check=True], so a non-zero [returncode] raises nothing. *)
Record CompletedProcess := {
  returncode : Z;
  stdout : bytes;
  stderr : bytes
}.

Inductive level := INFO | WARNING | ERROR.

(** An argument of a log record: the script logs [str], [bytes] and
    [int] values. *)
Inductive value :=
| VStr (s : str)
| VBytes (b : bytes)
| VInt (z : Z).

(** A log record: level, format string and arguments, as handed to
    [logger.info], [logger.warning] and [logger.error].  The logger's
    threshold is [INFO], so each of them is emitted. *)
Record LogRecord := {
  levelname : level;
  msg : string;
  args : list value
}.

Inductive event :=
| Spawn (a : argv) (capture_output : bool)
| Log (r : LogRecord).

Definition trace := list event.

Inductive exn := UnicodeDecodeError | ValueError.

Inductive result (T : Type) :=
| Returned (v : T)
| Raised (e : exn).
Arguments Returned {T} v.
Arguments Raised {T} e.

(** A computation over a runtime in state [W]: how it ends, the state it
    leaves the runtime in, and what it did on the way. *)
Definition M (W T : Type) := W -> result T * W * trace.

Definition ret {W T} (v : T) : M W T := fun w => (Returned v, w, []).

Definition raise {W T} (e : exn) : M W T := fun w => (Raised e, w, []).

Definition bind {W T U} (m : M W T) (k : T -> M W U) : M W U :=
  fun w =>
    match m w with
    | (Returned v, w1, t1) =>
      match k v w1 with
      | (r, w2, t2) => (r, w2, t1 ++ t2)
      end
    | (Raised e, w1, t1) => (Raised e, w1, t1)
    end.

Definition emit {W} (e : event) : M W unit := fun w => (Returned tt, w, [e]).

Declare Scope py_scope.
Delimit Scope py_scope with py.
Notation "x <- m ;; k" := (bind m (fun x => k))
  (at level 61, m at next level, right associativity) : py_scope.
Notation "m ;; k" := (bind m (fun _ => k))
  (at level 61, right associativity) : py_scope.
Local Open Scope py_scope.

(** [for x in l: body]. *)
Fixpoint for_each {W T} (l : list T) (body : T -> M W unit) : M W unit :=
  match l with
  | [] => ret tt
  | x :: l' => body x ;; for_each l' body
  end.

(** [range(n)]: empty when [n <= 0]. *)
Definition range (n : Z) : list Z := map Z.of_nat (seq 0 (Z.to_nat n)).

(** [b.decode("utf-8")]. *)
Definition decode {W} (b : bytes) : M W str :=
  match decode_utf8 b with
  | Some s => ret s
  | None => raise UnicodeDecodeError
  end.

Definition logger_info {W} (fmt : string) (a : list value) : M W unit :=
  emit (Log {| levelname := INFO; msg := fmt; args := a |}).
Definition logger_warning {W} (fmt : string) (a : list value) : M W unit :=
  emit (Log {| levelname := WARNING; msg := fmt; args := a |}).
Definition logger_error {W} (fmt : string) (a : list value) : M W unit :=
  emit (Log {| levelname := ERROR; msg := fmt; args := a |}).

(** Observations on the outcome of a computation. *)
Definition result_of {W T} (o : result T * W * trace) : result T := fst (fst o).
Definition world_of {W T} (o : result T * W * trace) : W := snd (fst o).
Definition trace_of {W T} (o : result T * W * trace) : trace := snd o.

(** The processes of a trace, in order, and its log records, in order. *)
Fixpoint spawns (t : trace) : list argv :=
  match t with
  | [] => []
  | Spawn a _ :: t' => a :: spawns t'
  | Log _ :: t' => spawns t'
  end.

Fixpoint logs (t : trace) : list LogRecord :=
  match t with
  | [] => []
  | Spawn _ _ :: t' => logs t'
  | Log r :: t' => r :: logs t'
  end.

(** ** The script *)

Definition IMAGE_NAME : str := lit "ubuntu-ssh".
Definition USER : str := lit "test_user".
Definition PASSWD : str := lit "1234".

(** What [_parse_args] returns: the sub-command ([required=True], one of
    [start], [info], [stop]) and, for [start], the [--build] flag
    ([store_true]) and the [--containers] count ([type=int]). *)
Inductive Namespace :=
| start (build : bool) (containers : Z)
| info
| stop.

Definition ps_argv : argv :=
  [A (lit "sudo"); A (lit "podman"); A (lit "ps"); A (lit "--format");
   A (lit "{{.Names}}")].

Definition inspect_argv (container_name : str) : argv :=
  [A (lit "sudo"); A (lit "podman"); A (lit "inspect"); A (lit "--format");
   A (lit "{{range.NetworkSettings.Networks}}{{.IPAddress}}{{end}}");
   A container_name].

Definition build_argv (dir : Path) : argv :=
  [A (lit "sudo"); A (lit "podman"); A (lit "build"); A (lit "-t");
   A IMAGE_NAME; A (lit "-f"); P (path_div dir (lit "Dockerfile"))].

Definition run_argv : argv :=
  [A (lit "sudo"); A (lit "podman"); A (lit "run"); A (lit "-dt");
   A IMAGE_NAME].

Definition stop_argv (container_name : str) : argv :=
  [A (lit "sudo"); A (lit "podman"); A (lit "stop"); A container_name].

(** The null character.  [subprocess.run] refuses an argument tuple in
    which a string holds one: it raises [ValueError] ("embedded null
    byte") before any process is created.  The one path of the script
    is the directory of the running file, which exists and so holds
    none. *)
Definition NUL : char := 0%N.

Definition arg_has_nul (x : arg) : bool :=
  match x with
  | A s => existsb (N.eqb NUL) s
  | P _ => false
  end.

Definition has_nul (a : argv) : bool := existsb arg_has_nul a.

Section Controller.

(** The container runtime: any state type, and what a process started
    with a given argument tuple does to that state and hands back. *)
Variable World : Type.
Variable run : argv -> World -> CompletedProcess * World.

(** The directory of the script, [Path(__file__).parent.absolute()]. *)
Variable CURRENT_DIR_PATH : Path.

(** [subprocess.run(args, capture_output=...)]: raises [ValueError]
    without creating a process when an argument holds a null character;
    otherwise starts the child and blocks until it has finished.
    Without [capture_output] the child writes to the script's own
    streams, and the script drops the result. *)
Definition subprocess_run (a : argv) (capture_output : bool)
  : M World CompletedProcess :=
  fun w =>
    if has_nul a then (Raised ValueError, w, [])
    else match run a w with
         | (r, w') => (Returned r, w', [Spawn a capture_output])
         end.

Definition _get_all_running_container_names : M World (list str) :=
  logger_info "Fetching all podman containers" [] ;;
  result <- subprocess_run ps_argv true ;;
  if bytes_bool (stderr result) then
    logger_error "Something went wrong when reading container names - %s"
                 [VBytes (stderr result)] ;;
    ret []
  else
    text <- decode (stdout result) ;;
    ret (slice_to_minus_1 (split LF text)).

Definition _get_container_ip_address (container_name : str) : M World str :=
  logger_info "Fetching ip address of container `%s`" [VStr container_name] ;;
  result <- subprocess_run (inspect_argv container_name) true ;;
  if bytes_bool (stderr result) then
    logger_error "Something went wrong when container ip address - %s"
                 [VBytes (stderr result)] ;;
    ret (lit "0.0.0.0")
  else
    decode (stdout result).

Definition print_podman_info : M World unit :=
  logger_info "Fetching podman container info" [] ;;
  containers <- _get_all_running_container_names ;;
  if negb (list_bool containers) then
    logger_warning "No running containers found" []
  else
    for_each containers (fun container_name =>
      ip <- _get_container_ip_address container_name ;;
      logger_info "Container `%s` - IP: `%s`, USER: `%s`, PASSWD: `%s`"
                  [VStr container_name; VStr (strip ip); VStr USER;
                   VStr PASSWD]).

Definition build_podman_image : M World unit :=
  logger_info "Building image `%s`" [VStr IMAGE_NAME] ;;
  _ <- subprocess_run (build_argv CURRENT_DIR_PATH) false ;;
  ret tt.

Definition start_podman_containers (containers : Z) : M World unit :=
  logger_info "Starting %d podman containers" [VInt containers] ;;
  for_each (range containers) (fun _ =>
    logger_info "Starting container with image `%s`" [VStr IMAGE_NAME] ;;
    _ <- subprocess_run run_argv false ;;
    ret tt).

Definition stop_podman_containers : M World unit :=
  logger_info "Stopping podman containers" [] ;;
  containers <- _get_all_running_container_names ;;
  for_each containers (fun container_name =>
    logger_info "Stopping container `%s`" [VStr container_name] ;;
    _ <- subprocess_run (stop_argv container_name) false ;;
    ret tt).

(** [main], from the namespace [_parse_args] returned to the exit code
    handed to [sys.exit]. *)
Definition main (namespace : Namespace) : M World Z :=
  match namespace with
  | start build containers =>
    (if build then build_podman_image else ret tt) ;;
    start_podman_containers containers
  | stop => stop_podman_containers
  | info => ret tt
  end ;;
  print_podman_info ;;
  ret 0%Z.

End Controller.

Arguments subprocess_run {World} run a capture_output.
Arguments _get_all_running_container_names {World} run.
Arguments _get_container_ip_address {World} run container_name.
Arguments print_podman_info {World} run.
Arguments build_podman_image {World} run CURRENT_DIR_PATH.
Arguments start_podman_containers {World} run containers.
Arguments stop_podman_containers {World} run.
Arguments main {World} run CURRENT_DIR_PATH namespace.

(** ** The sequences of the specification

    Section 4 of the specification gives each command as a fixed list
    of steps; [command_steps] is that list, [run_steps] performs a list
    of steps in order. *)
Section Specification.

Variable World : Type.
Variable run : argv -> World -> CompletedProcess * World.
Variable CURRENT_DIR_PATH : Path.

Definition command_steps (namespace : Namespace) : list (M World unit) :=
  match namespace with
  | start build containers =>
    (if build then [build_podman_image run CURRENT_DIR_PATH] else [])
    ++ [start_podman_containers run containers; print_podman_info run]
  | stop => [stop_podman_containers run; print_podman_info run]
  | info => [print_podman_info run]
  end.

Fixpoint run_steps (steps : list (M World unit)) : M World unit :=
  match steps with
  | [] => ret tt
  | s :: steps' => s ;; run_steps steps'
  end.

End Specification.

Arguments command_steps {World} run CURRENT_DIR_PATH namespace.
Arguments run_steps {World} steps.

(** ** A scripted runtime, for running the model

    The runtime answers the [n]-th process with the [n]-th outcome of a
    script, whatever the arguments; once the script is used up every
    process succeeds silently. *)
Module Scripted.

Definition World := nat.

Definition silent : CompletedProcess :=
  {| returncode := 0; stdout := []; stderr := [] |}.

Definition prints (out : bytes) : CompletedProcess :=
  {| returncode := 0; stdout := out; stderr := [] |}.

Definition fails (code : Z) (err : bytes) : CompletedProcess :=
  {| returncode := code; stdout := []; stderr := err |}.

Definition run (script : list CompletedProcess) (a : argv) (n : World)
  : CompletedProcess * World :=
  (nth n script silent, S n).

(** The line [s] as the runtime prints it. *)
Definition line (s : string) : bytes := blit s ++ [bLF].

End Scripted.

(** ** Vocabulary of the properties *)

(** The format string of the record [print_podman_info] logs for each
    container. *)
Definition report_format : string :=
  "Container `%s` - IP: `%s`, USER: `%s`, PASSWD: `%s`".

(** A record of the report shows a trimmed address: if it is a
    per-container record, its arguments are the name, a stripped string
    without whitespace at either end, and the two credentials. *)
Definition shows_trimmed_address (r : LogRecord) : Prop :=
  msg r = report_format ->
  exists container_name ip,
    args r = [VStr container_name; VStr (strip ip); VStr USER; VStr PASSWD]
    /\ is_trimmed (strip ip) = true.

Definition event_shows_trimmed_address (e : event) : Prop :=
  match e with
  | Log r => shows_trimmed_address r
  | Spawn _ _ => True
  end.

(** The captured output of a process can be decoded whenever the script
    decodes it, that is whenever the error stream is empty. *)
Definition output_decodes (r : CompletedProcess) : Prop :=
  stderr r = [] -> decode_utf8 (stdout r) <> None.

(** Two processes wrote the same output and the same errors. *)
Definition same_streams (r1 r2 : CompletedProcess) : Prop :=
  stdout r1 = stdout r2 /\ stderr r1 = stderr r2.

Section Simulation.

Variables W1 W2 : Type.
Variable R : W1 -> W2 -> Prop.

(** Two computations, each over its own runtime, that from related
    states end the same way, do the same things and leave related
    states. *)
Definition sim {T} (m1 : M W1 T) (m2 : M W2 T) : Prop :=
  forall w1 w2, R w1 w2 ->
    result_of (m1 w1) = result_of (m2 w2)
    /\ trace_of (m1 w1) = trace_of (m2 w2)
    /\ R (world_of (m1 w1)) (world_of (m2 w2)).

End Simulation.

Arguments sim {W1 W2} R {T} m1 m2.

(** The operation of a [sudo podman <operation> ...] argument tuple. *)
Definition podman_command (a : argv) : option str :=
  match a with
  | A _ :: A _ :: A c :: _ => Some c
  | _ => None
  end.

Definition str_eqb (s1 s2 : str) : bool :=
  if list_eq_dec N.eq_dec s1 s2 then true else false.

(** The operations that only read the state of the runtime. *)
Definition is_query (a : argv) : bool :=
  match podman_command a with
  | Some c => str_eqb c (lit "ps") || str_eqb c (lit "inspect")
  | None => false
  end.

Definition event_is_query (e : event) : Prop :=
  match e with
  | Spawn a _ => is_query a = true
  | Log _ => True
  end.

(** The per-container record of the report, and the per-container
    records of a trace, in order. *)
Definition report_record (container_name ip : str) : LogRecord :=
  {| levelname := INFO; msg := report_format;
     args := [VStr container_name; VStr ip; VStr USER; VStr PASSWD] |}.

Definition reports (t : trace) : list LogRecord :=
  filter (fun r => String.eqb (msg r) report_format) (logs t).

(** Every octet is below [0x80]. *)
Definition is_ascii (b : bytes) : bool :=
  forallb (fun x => N.ltb (Byte.to_N x) 0x80) b.

(** ** The answers a run received *)

Section Answers.

Variable World : Type.
Variable run : argv -> World -> CompletedProcess * World.

(** Replaying the argument tuples a run spawned, from the state it
    started in: what each process handed back, and the state the last
    one left. *)
Fixpoint responses (w : World) (calls : list argv)
  : list (argv * CompletedProcess) :=
  match calls with
  | [] => []
  | a :: calls' => (a, fst (run a w)) :: responses (snd (run a w)) calls'
  end.

Definition replay (w : World) (calls : list argv) : World :=
  fold_left (fun x a => snd (run a x)) calls w.

(** A computation changes the state of the runtime through the
    processes it spawns, and in no other way. *)
Definition threads {T} (m : M World T) : Prop :=
  forall w, world_of (m w) = replay w (spawns (trace_of (m w))).

End Answers.

Arguments responses {World} run w calls.
Arguments replay {World} run w calls.
Arguments threads {World} run {T} m.

(** The names of a listing can all be passed as arguments. *)
Definition lists_no_nul (r : CompletedProcess) : Prop :=
  forall text, decode_utf8 (stdout r) = Some text ->
    Forall (fun n : str => ~ In NUL n) (slice_to_minus_1 (split LF text)).

(** An answer the script can use: the output of a query can be decoded
    when the script decodes it, and the names a listing gives hold no
    null character.  Nothing is asked of a return code, of an error
    stream, or of the answer to [podman build], [run] or [stop]. *)
Definition usable (ar : argv * CompletedProcess) : Prop :=
  (is_query (fst ar) = true -> output_decodes (snd ar))
  /\ (fst ar = ps_argv -> stderr (snd ar) = [] -> lists_no_nul (snd ar)).

(** A computation returns, with a value in [Q], in every run in which
    every answer it received is usable. *)
Definition returns_if_usable {World}
           (run : argv -> World -> CompletedProcess * World)
           {T} (m : M World T) (Q : T -> Prop) : Prop :=
  forall w, Forall usable (responses run w (spawns (trace_of (m w)))) ->
    exists v, result_of (m w) = Returned v /\ Q v.

(** The states in which the containers of a list are inspected, one
    after the other, from the state [w]. *)
Fixpoint inspect_states {World}
         (run : argv -> World -> CompletedProcess * World)
         (names : list str) (w : World) : list World :=
  match names with
  | [] => []
  | name :: names' =>
    w :: inspect_states run names' (snd (run (inspect_argv name) w))
  end.

(** ** A stateless runtime, for running the model

    The runtime answers by the operation of the argument tuple alone,
    from a table; an operation that is not in the table succeeds
    silently. *)
Module Stateless.

Definition World := unit.

Fixpoint answer (table : list (string * CompletedProcess))
         (c : str) : CompletedProcess :=
  match table with
  | [] => Scripted.silent
  | (key, r) :: table' => if str_eqb c (lit key) then r else answer table' c
  end.

Definition run (table : list (string * CompletedProcess)) (a : argv)
           (w : World) : CompletedProcess * World :=
  (match podman_command a with
   | Some c => answer table c
   | None => Scripted.silent
   end, w).

End Stateless.

(** ** Facts about the Python primitives *)

Module PyFacts.

Lemma split_not_nil sep s : split sep s <> [].
Proof.
  destruct s as [|c s]; simpl; [discriminate|].
  destruct (N.eqb c sep); [discriminate|].
  destruct (split sep s); discriminate.
Qed.

(** A piece without separator, followed by a separator, is the first
    element of the split. *)
Lemma split_app_sep sep n rest :
  ~ In sep n -> split sep (n ++ sep :: rest) = n :: split sep rest.
Proof.
  induction n as [|c n IH]; simpl; intros Hn.
  - rewrite N.eqb_refl. reflexivity.
  - destruct (N.eqb_spec c sep) as [->|_]; [tauto|].
    rewrite IH by tauto. reflexivity.
Qed.

Lemma split_no_sep sep n : ~ In sep n -> split sep n = [n].
Proof.
  induction n as [|c n IH]; simpl; intros Hn; [reflexivity|].
  destruct (N.eqb_spec c sep) as [->|_]; [tauto|].
  rewrite IH by tauto. reflexivity.
Qed.

Lemma split_lines names final :
  Forall (fun n => ~ In LF n) names -> ~ In LF final ->
  split LF (lines names ++ final) = names ++ [final].
Proof.
  intros Hn Hf. induction Hn as [|n names Hn _ IH]; simpl.
  - apply split_no_sep, Hf.
  - unfold lines in IH |- *. simpl. rewrite <- !app_assoc. simpl.
    rewrite split_app_sep by exact Hn. f_equal. exact IH.
Qed.

Lemma slice_to_minus_1_last {T} (l : list T) x :
  slice_to_minus_1 (l ++ [x]) = l.
Proof. apply removelast_last. Qed.

(** [lstrip] removes a prefix, [rstrip] a suffix. *)
Lemma lstrip_suffix s : exists p, s = p ++ lstrip s.
Proof.
  induction s as [|c s [p IH]]; simpl.
  - exists []. reflexivity.
  - destruct (isspace c).
    + exists (c :: p). simpl. f_equal. exact IH.
    + exists []. reflexivity.
Qed.

Lemma rstrip_prefix s : exists q, s = rstrip s ++ q.
Proof.
  unfold rstrip. destruct (lstrip_suffix (rev s)) as [p Hp].
  exists (rev p). rewrite <- rev_app_distr, <- Hp, rev_involutive.
  reflexivity.
Qed.

Lemma lstrip_starts s : starts_with_space (lstrip s) = false.
Proof.
  induction s as [|c s IH]; simpl; [reflexivity|].
  destruct (isspace c) eqn:E; [exact IH|]. simpl. exact E.
Qed.

Lemma rstrip_ends s : ends_with_space (rstrip s) = false.
Proof.
  unfold ends_with_space, rstrip. rewrite rev_involutive.
  apply lstrip_starts.
Qed.

Lemma rstrip_starts s :
  starts_with_space s = false -> starts_with_space (rstrip s) = false.
Proof.
  intros Hs. destruct (rstrip_prefix s) as [q Hq].
  destruct (rstrip s) as [|c r]; [reflexivity|].
  rewrite Hq in Hs. exact Hs.
Qed.

Lemma strip_is_trimmed s : is_trimmed (strip s) = true.
Proof.
  unfold is_trimmed, strip.
  rewrite rstrip_starts by apply lstrip_starts.
  rewrite rstrip_ends. reflexivity.
Qed.

End PyFacts.

(** Projections of an outcome that is an explicit triple. *)
Ltac project_outcome :=
  repeat match goal with
         | |- context [trace_of (?r, ?w, ?t)] =>
           change (trace_of (r, w, t)) with t
         | |- context [result_of (?r, ?w, ?t)] =>
           change (result_of (r, w, t)) with r
         | |- context [world_of (?r, ?w, ?t)] =>
           change (world_of (r, w, t)) with w
         end.

(** ** Arguments with a null character *)

Lemma has_nul_ps : has_nul ps_argv = false.
Proof. reflexivity. Qed.

Lemma has_nul_run : has_nul run_argv = false.
Proof. reflexivity. Qed.

Lemma has_nul_build dir : has_nul (build_argv dir) = false.
Proof. reflexivity. Qed.

Lemma has_nul_inspect name :
  has_nul (inspect_argv name) = existsb (N.eqb NUL) name.
Proof.
  unfold has_nul, inspect_argv. simpl.
  apply orb_false_r.
Qed.

Lemma has_nul_stop name : has_nul (stop_argv name) = existsb (N.eqb NUL) name.
Proof.
  unfold has_nul, stop_argv. simpl.
  apply orb_false_r.
Qed.

Lemma no_nul name : ~ In NUL name -> existsb (N.eqb NUL) name = false.
Proof.
  intros H. destruct (existsb (N.eqb NUL) name) eqn:E; [|reflexivity].
  apply existsb_exists in E. destruct E as (c & Hc & Hn).
  apply N.eqb_eq in Hn. subst c. contradiction.
Qed.

Lemma some_nul name : In NUL name -> existsb (N.eqb NUL) name = true.
Proof.
  intros H. apply existsb_exists. exists NUL. split; [exact H|].
  apply N.eqb_refl.
Qed.

(** ** The two queries: listing and address *)

Section Queries.

Variable World : Type.
Variable run : argv -> World -> CompletedProcess * World.

Lemma bytes_bool_true b : b <> [] -> bytes_bool b = true.
Proof. destruct b; [congruence | reflexivity]. Qed.

(** The listing when the runtime wrote to its error stream. *)
Lemma listing_on_error w :
  stderr (fst (run ps_argv w)) <> [] ->
  _get_all_running_container_names run w =
  (Returned [], snd (run ps_argv w),
   [Log {| levelname := INFO; msg := "Fetching all podman containers";
           args := [] |};
    Spawn ps_argv true;
    Log {| levelname := ERROR;
           msg := "Something went wrong when reading container names - %s";
           args := [VBytes (stderr (fst (run ps_argv w)))] |}]).
Proof.
  intros H. apply bytes_bool_true in H.
  unfold _get_all_running_container_names, bind, logger_info, logger_error,
    emit, subprocess_run.
  rewrite has_nul_ps.
  destruct (run ps_argv w) as [r w']. simpl in *. rewrite H. reflexivity.
Qed.

(** The listing when the error stream is empty and the output decodes. *)
Lemma listing_on_success w text :
  stderr (fst (run ps_argv w)) = [] ->
  decode_utf8 (stdout (fst (run ps_argv w))) = Some text ->
  _get_all_running_container_names run w =
  (Returned (slice_to_minus_1 (split LF text)), snd (run ps_argv w),
   [Log {| levelname := INFO; msg := "Fetching all podman containers";
           args := [] |};
    Spawn ps_argv true]).
Proof.
  intros He Hd.
  unfold _get_all_running_container_names, bind, logger_info, emit,
    subprocess_run, decode.
  rewrite has_nul_ps.
  destruct (run ps_argv w) as [r w']. simpl in *. rewrite He, Hd.
  reflexivity.
Qed.

(** The listing when the error stream is empty and the output is not
    UTF-8. *)
Lemma listing_on_undecodable w :
  stderr (fst (run ps_argv w)) = [] ->
  decode_utf8 (stdout (fst (run ps_argv w))) = None ->
  result_of (_get_all_running_container_names run w)
  = Raised UnicodeDecodeError.
Proof.
  intros He Hd.
  unfold _get_all_running_container_names, bind, logger_info, emit,
    subprocess_run, decode.
  rewrite has_nul_ps.
  destruct (run ps_argv w) as [r w']. simpl in *. rewrite He, Hd.
  reflexivity.
Qed.

Lemma address_on_error name w :
  ~ In NUL name ->
  stderr (fst (run (inspect_argv name) w)) <> [] ->
  _get_container_ip_address run name w =
  (Returned (lit "0.0.0.0"), snd (run (inspect_argv name) w),
   [Log {| levelname := INFO;
           msg := "Fetching ip address of container `%s`";
           args := [VStr name] |};
    Spawn (inspect_argv name) true;
    Log {| levelname := ERROR;
           msg := "Something went wrong when container ip address - %s";
           args := [VBytes (stderr (fst (run (inspect_argv name) w)))] |}]).
Proof.
  intros Hn H. apply bytes_bool_true in H.
  unfold _get_container_ip_address, bind, logger_info, logger_error,
    emit, subprocess_run.
  rewrite has_nul_inspect, (no_nul name Hn).
  destruct (run (inspect_argv name) w) as [r w']. simpl in *.
  rewrite H. reflexivity.
Qed.

Lemma address_on_success name w text :
  ~ In NUL name ->
  stderr (fst (run (inspect_argv name) w)) = [] ->
  decode_utf8 (stdout (fst (run (inspect_argv name) w))) = Some text ->
  _get_container_ip_address run name w =
  (Returned text, snd (run (inspect_argv name) w),
   [Log {| levelname := INFO;
           msg := "Fetching ip address of container `%s`";
           args := [VStr name] |};
    Spawn (inspect_argv name) true]).
Proof.
  intros Hn He Hd.
  unfold _get_container_ip_address, bind, logger_info, emit,
    subprocess_run, decode.
  rewrite has_nul_inspect, (no_nul name Hn).
  destruct (run (inspect_argv name) w) as [r w']. simpl in *.
  rewrite He, Hd. reflexivity.
Qed.

(** An inspection for a name with a null character: no process. *)
Lemma address_on_nul name w :
  In NUL name ->
  _get_container_ip_address run name w =
  (Raised ValueError, w,
   [Log {| levelname := INFO;
           msg := "Fetching ip address of container `%s`";
           args := [VStr name] |}]).
Proof.
  intros Hn.
  unfold _get_container_ip_address, bind, logger_info, emit, subprocess_run.
  rewrite has_nul_inspect, (some_nul name Hn). reflexivity.
Qed.

End Queries.

Arguments listing_on_error {World} run w _.
Arguments listing_on_success {World} run w text _ _.
Arguments listing_on_undecodable {World} run w _ _.
Arguments address_on_error {World} run name w _ _.
Arguments address_on_success {World} run name w text _ _ _.
Arguments address_on_nul {World} run name w _.

(** ** Traces of sequenced computations *)

Section Sequencing.

Variable World : Type.

Lemma bind_returned {T U} (m : M World T) (k : T -> M World U) w v w1 t1 :
  m w = (Returned v, w1, t1) ->
  bind m k w = (result_of (k v w1), world_of (k v w1), t1 ++ trace_of (k v w1)).
Proof.
  intros H. unfold bind. rewrite H.
  destruct (k v w1) as [[r w2] t2]. reflexivity.
Qed.

Lemma bind_raised {T U} (m : M World T) (k : T -> M World U) w e w1 t1 :
  m w = (Raised e, w1, t1) -> bind m k w = (Raised e, w1, t1).
Proof. intros H. unfold bind. rewrite H. reflexivity. Qed.

Lemma spawns_app t1 t2 : spawns (t1 ++ t2) = spawns t1 ++ spawns t2.
Proof.
  induction t1 as [|[a c|r] t1 IH]; simpl; [reflexivity| |exact IH].
  f_equal. exact IH.
Qed.

Lemma logs_app t1 t2 : logs (t1 ++ t2) = logs t1 ++ logs t2.
Proof.
  induction t1 as [|[a c|r] t1 IH]; simpl; [reflexivity|exact IH|].
  f_equal. exact IH.
Qed.

(** A loop whose body spawns one process per element and never raises
    spawns one process per element, in order, and returns. *)
Lemma for_each_spawns {T} (body : T -> M World unit) (f : T -> argv) :
  (forall x w, result_of (body x w) = Returned tt
               /\ spawns (trace_of (body x w)) = [f x]) ->
  forall l w,
    result_of (for_each l body w) = Returned tt
    /\ spawns (trace_of (for_each l body w)) = map f l.
Proof.
  intros Hbody. induction l as [|x l IH]; intros w; simpl.
  - split; reflexivity.
  - destruct (Hbody x w) as [Hr Hs].
    destruct (body x w) as [[r w1] t1] eqn:E.
    unfold result_of, trace_of in Hr, Hs. simpl in Hr, Hs. subst r.
    erewrite bind_returned by exact E.
    destruct (IH w1) as [Hr' Hs']. split; [exact Hr'|].
    unfold trace_of at 1. simpl. rewrite spawns_app, Hs, Hs'. reflexivity.
Qed.

(** The same for a body that behaves so on the elements of the list. *)
Lemma for_each_spawns_on {T} (Q : T -> Prop)
      (body : T -> M World unit) (f : T -> argv) :
  (forall x w, Q x -> result_of (body x w) = Returned tt
                      /\ spawns (trace_of (body x w)) = [f x]) ->
  forall l w, Forall Q l ->
    result_of (for_each l body w) = Returned tt
    /\ spawns (trace_of (for_each l body w)) = map f l.
Proof.
  intros Hbody. induction l as [|x l IH]; intros w HQ; simpl.
  - split; reflexivity.
  - inversion HQ as [|? ? Hx Hl]; subst.
    destruct (Hbody x w Hx) as [Hr Hs].
    destruct (body x w) as [[r w1] t1] eqn:E.
    unfold result_of, trace_of in Hr, Hs. simpl in Hr, Hs. subst r.
    erewrite bind_returned by exact E.
    destruct (IH w1 Hl) as [Hr' Hs']. split; [exact Hr'|].
    unfold trace_of at 1. simpl. rewrite spawns_app, Hs, Hs'. reflexivity.
Qed.

End Sequencing.

Arguments bind_returned {World T U} m k w v w1 t1 _.
Arguments bind_raised {World T U} m k w e w1 t1 _.
Arguments for_each_spawns {World T} body f _ l w.
Arguments for_each_spawns_on {World T} Q body f _ l w _.

(** ** Properties of the operations *)

(** C2: whenever the inspect call writes anything to its error stream,
    [_get_container_ip_address] returns normally, and what it returns is
    exactly the literal ["0.0.0.0"].  There is an inspect call, and so a
    stream, when the name holds no null character. *)
Theorem address_error_returns_sentinel
  (World : Type) (run : argv -> World -> CompletedProcess * World)
  (container_name : str) (w : World) :
  ~ In NUL container_name ->
  stderr (fst (run (inspect_argv container_name) w)) <> [] ->
  result_of (_get_container_ip_address run container_name w)
  = Returned (lit "0.0.0.0").
Proof. intros Hn H. rewrite (address_on_error run _ _ Hn H). reflexivity. Qed.

Lemma address_error_returns_sentinel_witness :
  let run := Scripted.run
               [Scripted.fails 125 (blit "Error: no such object: c1")] in
  stderr (fst (run (inspect_argv (lit "c1")) 0%nat)) <> []
  /\ result_of (_get_container_ip_address run (lit "c1") 0%nat)
     = Returned (lit "0.0.0.0").
Proof.
  intros run.
  assert (H : stderr (fst (run (inspect_argv (lit "c1")) 0%nat)) <> [])
    by (vm_compute; discriminate).
  split; [exact H|].
  refine (address_error_returns_sentinel _ run (lit "c1") 0%nat _ H).
  vm_compute. intuition discriminate.
Defined.

(** C3: whenever the list call writes anything to its error stream,
    [_get_all_running_container_names] returns the empty list, which is
    also what it returns when the runtime lists no container: the two
    cases give the caller the same value. *)
Theorem listing_error_returns_empty
  (World : Type) (run : argv -> World -> CompletedProcess * World)
  (w_error w_none : World) :
  stderr (fst (run ps_argv w_error)) <> [] ->
  stderr (fst (run ps_argv w_none)) = [] ->
  stdout (fst (run ps_argv w_none)) = [] ->
  result_of (_get_all_running_container_names run w_error) = Returned []
  /\ result_of (_get_all_running_container_names run w_error)
     = result_of (_get_all_running_container_names run w_none).
Proof.
  intros Herr He Ho.
  rewrite (listing_on_error run _ Herr).
  rewrite (listing_on_success run w_none [] He)
    by (rewrite Ho; reflexivity).
  split; reflexivity.
Qed.

Lemma listing_error_returns_empty_witness :
  let run := Scripted.run
               [Scripted.fails 125 (blit "Error: cannot connect to Podman");
                Scripted.prints []] in
  result_of (_get_all_running_container_names run 0%nat) = Returned []
  /\ result_of (_get_all_running_container_names run 0%nat)
     = result_of (_get_all_running_container_names run 1%nat).
Proof.
  intros run.
  apply (listing_error_returns_empty _ run 0%nat 1%nat).
  - vm_compute. discriminate.
  - reflexivity.
  - reflexivity.
Defined.

(** C8: when the error stream is empty and the output is the names, each
    followed by a newline, [_get_all_running_container_names] returns
    exactly those names, in the order the runtime printed them, with no
    empty element after the last. *)
Theorem listing_returns_names_in_order
  (World : Type) (run : argv -> World -> CompletedProcess * World)
  (w : World) (names : list str) :
  stderr (fst (run ps_argv w)) = [] ->
  decode_utf8 (stdout (fst (run ps_argv w))) = Some (lines names) ->
  Forall (fun n => ~ In LF n) names ->
  result_of (_get_all_running_container_names run w) = Returned names.
Proof.
  intros He Hd Hn.
  rewrite (listing_on_success run w _ He Hd). unfold result_of. simpl.
  rewrite <- (app_nil_r (lines names)).
  rewrite PyFacts.split_lines by (auto using in_nil).
  rewrite PyFacts.slice_to_minus_1_last. reflexivity.
Qed.

Lemma listing_returns_names_in_order_witness :
  let run := Scripted.run
               [Scripted.prints (Scripted.line "zen_bohr"
                                 ++ Scripted.line "c1")] in
  result_of (_get_all_running_container_names run 0%nat)
  = Returned [lit "zen_bohr"; lit "c1"].
Proof.
  intros run.
  apply (listing_returns_names_in_order _ run 0%nat
           [lit "zen_bohr"; lit "c1"]).
  - reflexivity.
  - vm_compute. reflexivity.
  - repeat constructor; vm_compute; intuition discriminate.
Defined.

(** C10: with an empty error stream, the element after the last newline
    of the output is always dropped.  When the output is [names], each
    followed by a newline, and then an unterminated [final], the split
    gives [names ++ [final]] and the listing returns [names] only: a
    non-empty [final] is a name the listing omits.  For an empty output
    the listing is empty. *)
Theorem listing_omits_unterminated_final_name
  (World : Type) (run : argv -> World -> CompletedProcess * World)
  (w : World) (names : list str) (final : str) :
  stderr (fst (run ps_argv w)) = [] ->
  decode_utf8 (stdout (fst (run ps_argv w))) = Some (lines names ++ final) ->
  Forall (fun n => ~ In LF n) names ->
  ~ In LF final ->
  split LF (lines names ++ final) = names ++ [final]
  /\ result_of (_get_all_running_container_names run w) = Returned names
  /\ (stdout (fst (run ps_argv w)) = [] ->
      result_of (_get_all_running_container_names run w) = Returned []).
Proof.
  intros He Hd Hn Hf.
  assert (Hs := PyFacts.split_lines names final Hn Hf).
  assert (Hr : result_of (_get_all_running_container_names run w)
               = Returned names).
  { rewrite (listing_on_success run w _ He Hd). unfold result_of. simpl.
    rewrite Hs, PyFacts.slice_to_minus_1_last. reflexivity. }
  repeat split; [exact Hs | exact Hr |].
  intros Ho. rewrite (listing_on_success run w [] He)
    by (rewrite Ho; reflexivity).
  reflexivity.
Qed.

Lemma listing_omits_unterminated_final_name_witness :
  let run := Scripted.run
               [Scripted.prints (Scripted.line "c1" ++ blit "c2")] in
  split LF (lines [lit "c1"] ++ lit "c2") = [lit "c1"; lit "c2"]
  /\ result_of (_get_all_running_container_names run 0%nat)
     = Returned [lit "c1"].
Proof.
  intros run.
  refine (let H := listing_omits_unterminated_final_name _ run 0%nat
                     [lit "c1"] (lit "c2") _ _ _ _ in
          conj (proj1 H) (proj1 (proj2 H))).
  - reflexivity.
  - vm_compute. reflexivity.
  - repeat constructor; vm_compute; intuition discriminate.
  - vm_compute; intuition discriminate.
Defined.

Section Lifecycle.

Variable World : Type.
Variable run : argv -> World -> CompletedProcess * World.

Lemma range_length n : length (range n) = Z.to_nat n.
Proof. unfold range. rewrite length_map, length_seq. reflexivity. Qed.

(** One iteration of the start loop: whatever the process does, the
    iteration returns, having spawned exactly [podman run]. *)
Lemma start_iteration w :
  result_of ((logger_info "Starting container with image `%s`"
                          [VStr IMAGE_NAME] ;;
              _ <- subprocess_run run run_argv false ;;
              ret tt) w) = Returned tt
  /\ spawns (trace_of ((logger_info "Starting container with image `%s`"
                                    [VStr IMAGE_NAME] ;;
                        _ <- subprocess_run run run_argv false ;;
                        ret tt) w)) = [run_argv].
Proof.
  unfold bind, logger_info, emit, subprocess_run, ret.
  rewrite has_nul_run. destruct (run run_argv w) as [r w']. split; reflexivity.
Qed.

Lemma stop_iteration container_name w :
  ~ In NUL container_name ->
  result_of ((logger_info "Stopping container `%s`" [VStr container_name] ;;
              _ <- subprocess_run run (stop_argv container_name) false ;;
              ret tt) w) = Returned tt
  /\ spawns (trace_of ((logger_info "Stopping container `%s`"
                                    [VStr container_name] ;;
                        _ <- subprocess_run run (stop_argv container_name)
                                            false ;;
                        ret tt) w)) = [stop_argv container_name].
Proof.
  intros Hn. unfold bind, logger_info, emit, subprocess_run, ret.
  rewrite has_nul_stop, (no_nul _ Hn).
  destruct (run (stop_argv container_name) w) as [r w']. split; reflexivity.
Qed.

(** The listing spawns [podman ps] and nothing else, however it ends. *)
Lemma listing_spawns w :
  spawns (trace_of (_get_all_running_container_names run w)) = [ps_argv].
Proof.
  unfold _get_all_running_container_names, bind, logger_info, logger_error,
    emit, subprocess_run, decode, ret, raise.
  rewrite has_nul_ps. destruct (run ps_argv w) as [r w'].
  destruct (bytes_bool (stderr r)); [reflexivity|].
  destruct (decode_utf8 (stdout r)); reflexivity.
Qed.

End Lifecycle.

Arguments start_iteration {World} run w.
Arguments stop_iteration {World} run container_name w _.
Arguments listing_spawns {World} run w.

(** C4: for a count [0 <= containers], [start_podman_containers] returns
    having spawned exactly [containers] processes, each of them
    [podman run], whatever each of them does: none for 0, three for 3.
    The runtime is arbitrary, so this covers every pattern of failing
    calls. *)
Theorem start_spawns_count_runs
  (World : Type) (run : argv -> World -> CompletedProcess * World)
  (containers : Z) (w : World) :
  (0 <= containers)%Z ->
  let t := trace_of (start_podman_containers run containers w) in
  result_of (start_podman_containers run containers w) = Returned tt
  /\ spawns t = repeat run_argv (Z.to_nat containers)
  /\ Z.of_nat (length (spawns t)) = containers.
Proof.
  intros Hc t.
  assert (H : result_of (start_podman_containers run containers w)
              = Returned tt
              /\ spawns t = repeat run_argv (Z.to_nat containers)).
  { subst t. unfold start_podman_containers.
    erewrite bind_returned by reflexivity.
    match goal with
    | |- context [for_each _ ?body] =>
      destruct (for_each_spawns body (fun _ => run_argv)
                  (fun _ w' => start_iteration run w')
                  (range containers) w) as [Hr Hs]
    end.
    split; [exact Hr|].
    unfold trace_of at 1. simpl. rewrite Hs.
    rewrite map_const, range_length. reflexivity. }
  destruct H as [Hr Hs]. repeat split; [exact Hr | exact Hs |].
  rewrite Hs, repeat_length. lia.
Qed.

Lemma start_spawns_count_runs_witness :
  let run := Scripted.run
               [Scripted.prints (Scripted.line "4f2a9c");
                Scripted.fails 125 (blit "Error: image not known")] in
  let t := trace_of (start_podman_containers run 3 0%nat) in
  result_of (start_podman_containers run 3 0%nat) = Returned tt
  /\ spawns t = [run_argv; run_argv; run_argv]
  /\ Z.of_nat (length (spawns t)) = 3%Z.
Proof.
  intros run.
  apply (start_spawns_count_runs _ run 3 0%nat). lia.
Defined.

(** C5, as the script has it: when the listing returns [names] and no
    name holds a null character, [stop_podman_containers] spawns, after
    the listing's [podman ps], exactly one [podman stop] per name, in
    the order of [names], and returns; for an empty listing it spawns no
    [podman stop]. *)
Theorem stop_spawns_one_stop_per_name
  (World : Type) (run : argv -> World -> CompletedProcess * World)
  (w : World) (names : list str) :
  result_of (_get_all_running_container_names run w) = Returned names ->
  Forall (fun n => ~ In NUL n) names ->
  result_of (stop_podman_containers run w) = Returned tt
  /\ spawns (trace_of (stop_podman_containers run w))
     = ps_argv :: map stop_argv names.
Proof.
  intros Hl Hn. unfold stop_podman_containers.
  erewrite bind_returned by reflexivity.
  assert (Hs := listing_spawns run w).
  destruct (_get_all_running_container_names run w) as [[r w1] t1] eqn:E.
  unfold result_of, trace_of in Hl, Hs. simpl in Hl, Hs. subst r.
  erewrite bind_returned by exact E.
  match goal with
  | |- context [for_each _ ?body] =>
    destruct (for_each_spawns_on (fun n : str => ~ In NUL n) body stop_argv
                (fun name w' => stop_iteration run name w') names w1 Hn)
      as [Hr Hs']
  end.
  split; [exact Hr|].
  project_outcome. rewrite !spawns_app, Hs, Hs'. reflexivity.
Qed.

Lemma stop_spawns_one_stop_per_name_witness :
  let run := Scripted.run
               [Scripted.prints (Scripted.line "c1" ++ Scripted.line "c2");
                Scripted.fails 125 (blit "Error: no container c1")] in
  result_of (_get_all_running_container_names run 0%nat)
  = Returned [lit "c1"; lit "c2"]
  /\ result_of (stop_podman_containers run 0%nat) = Returned tt
  /\ spawns (trace_of (stop_podman_containers run 0%nat))
     = [ps_argv; stop_argv (lit "c1"); stop_argv (lit "c2")].
Proof.
  intros run.
  assert (H : result_of (_get_all_running_container_names run 0%nat)
              = Returned [lit "c1"; lit "c2"]) by reflexivity.
  split; [exact H|].
  refine (stop_spawns_one_stop_per_name _ run 0%nat _ H _).
  repeat constructor; vm_compute; intuition discriminate.
Defined.

(** C5, as stated, fails: a listed name can hold a null character (the
    listing's output is split on newlines only), and [subprocess.run]
    refuses it.  For the output [b"c1\nc\x00\nc3\n"] the listing returns
    three names; [stop_podman_containers] stops [c1], raises
    [ValueError] at the second name and never stops [c3]. *)
Lemma stop_skips_names_after_a_null_character :
  let run := Scripted.run
               [Scripted.prints (Scripted.line "c1" ++ [x63; x00; bLF]
                                 ++ Scripted.line "c3")] in
  result_of (_get_all_running_container_names run 0%nat)
  = Returned [lit "c1"; [99%N; NUL]; lit "c3"]
  /\ result_of (stop_podman_containers run 0%nat) = Raised ValueError
  /\ spawns (trace_of (stop_podman_containers run 0%nat))
     = [ps_argv; stop_argv (lit "c1")].
Proof. repeat split. Qed.

(** ** The report *)

Section Report.

Variable World : Type.
Variable run : argv -> World -> CompletedProcess * World.

Lemma bind_trace_all {T U} (P : event -> Prop)
      (m : M World T) (k : T -> M World U) w :
  Forall P (trace_of (m w)) ->
  (forall v w', Forall P (trace_of (k v w'))) ->
  Forall P (trace_of (bind m k w)).
Proof.
  intros Hm Hk. unfold bind.
  destruct (m w) as [[[v|e] w1] t1]; [|exact Hm].
  specialize (Hk v w1). destruct (k v w1) as [[r w2] t2].
  unfold trace_of in *. simpl in *. apply Forall_app. split; assumption.
Qed.

Lemma for_each_trace_all {T} (P : event -> Prop) (body : T -> M World unit) :
  (forall x w, Forall P (trace_of (body x w))) ->
  forall l w, Forall P (trace_of (for_each l body w)).
Proof.
  intros Hbody. induction l as [|x l IH]; intros w; simpl.
  - constructor.
  - apply bind_trace_all; [apply Hbody | intros _ w'; apply IH].
Qed.

Lemma listing_trace_shows_trimmed w :
  Forall event_shows_trimmed_address
         (trace_of (_get_all_running_container_names run w)).
Proof.
  unfold _get_all_running_container_names, bind, logger_info, logger_error,
    emit, subprocess_run, decode, ret, raise.
  rewrite has_nul_ps. destruct (run ps_argv w) as [r w'].
  destruct (bytes_bool (stderr r));
    [|destruct (decode_utf8 (stdout r))];
    repeat constructor; intros H; discriminate H.
Qed.

Lemma address_trace_shows_trimmed name w :
  Forall event_shows_trimmed_address
         (trace_of (_get_container_ip_address run name w)).
Proof.
  unfold _get_container_ip_address, bind, logger_info, logger_error,
    emit, subprocess_run, decode, ret, raise.
  destruct (has_nul (inspect_argv name));
    [repeat constructor; intros H; discriminate H|].
  destruct (run (inspect_argv name) w) as [r w'].
  destruct (bytes_bool (stderr r));
    [|destruct (decode_utf8 (stdout r))];
    repeat constructor; intros H; discriminate H.
Qed.

Lemma report_trace_shows_trimmed w :
  Forall event_shows_trimmed_address (trace_of (print_podman_info run w)).
Proof.
  unfold print_podman_info.
  apply bind_trace_all.
  { repeat constructor. intros H; discriminate H. }
  intros _ w1. apply bind_trace_all; [apply listing_trace_shows_trimmed|].
  intros containers w2. destruct (negb (list_bool containers)).
  { repeat constructor. intros H; discriminate H. }
  apply for_each_trace_all. intros name w3.
  apply bind_trace_all; [apply address_trace_shows_trimmed|].
  intros ip w4. repeat constructor. intros _.
  exists name, ip. split; [reflexivity | apply PyFacts.strip_is_trimmed].
Qed.

End Report.

Arguments report_trace_shows_trimmed {World} run w.

(** C1, as the script has it: the address is trimmed where it is
    reported.  [_get_container_ip_address] returns the decoded output as
    the runtime wrote it; [print_podman_info] strips it, so in every
    per-container record of the report the address is a string with no
    whitespace at either end. *)
Theorem reported_address_is_trimmed
  (World : Type) (run : argv -> World -> CompletedProcess * World)
  (w : World) (r : LogRecord) :
  In (Log r) (trace_of (print_podman_info run w)) ->
  msg r = report_format ->
  exists container_name ip,
    args r = [VStr container_name; VStr (strip ip); VStr USER; VStr PASSWD]
    /\ is_trimmed (strip ip) = true.
Proof.
  intros Hin.
  assert (H := report_trace_shows_trimmed run w).
  rewrite Forall_forall in H. exact (H (Log r) Hin).
Qed.

Lemma reported_address_is_trimmed_witness :
  let run := Scripted.run
               [Scripted.prints (Scripted.line "c1");
                Scripted.prints (Scripted.line " 10.88.0.2")] in
  let r := {| levelname := INFO; msg := report_format;
              args := [VStr (lit "c1"); VStr (lit "10.88.0.2");
                       VStr USER; VStr PASSWD] |} in
  In (Log r) (trace_of (print_podman_info run 0%nat))
  /\ exists container_name ip,
       args r = [VStr container_name; VStr (strip ip); VStr USER;
                 VStr PASSWD]
       /\ is_trimmed (strip ip) = true.
Proof.
  intros run r.
  assert (Hin : In (Log r) (trace_of (print_podman_info run 0%nat))).
  { vm_compute. do 5 right. left. reflexivity. }
  split; [exact Hin|].
  exact (reported_address_is_trimmed _ run 0%nat r Hin eq_refl).
Defined.

(** C1, as stated, fails: for the output [b"10.88.0.2\n"] with an empty
    error stream, [_get_container_ip_address] returns ["10.88.0.2\n"],
    trailing newline included. *)
Lemma address_returned_untrimmed :
  let run := Scripted.run [Scripted.prints (Scripted.line "10.88.0.2")] in
  result_of (_get_container_ip_address run (lit "c1") 0%nat)
  = Returned (lit "10.88.0.2" ++ [LF])
  /\ is_trimmed (lit "10.88.0.2" ++ [LF]) = false.
Proof. split; reflexivity. Qed.

(** ** The exit code *)

Section ExitCode.

Variable World : Type.
Variable run : argv -> World -> CompletedProcess * World.
Variable CURRENT_DIR_PATH : Path.

Lemma bind_result {T U} (m : M World T) (k : T -> M World U) w v :
  result_of (m w) = Returned v ->
  result_of (bind m k w) = result_of (k v (world_of (m w))).
Proof.
  unfold bind. destruct (m w) as [[r w1] t1].
  unfold result_of, world_of. simpl. intros ->.
  destruct (k v w1) as [[r2 w2] t2]. reflexivity.
Qed.

Lemma for_each_returns {T} (body : T -> M World unit) :
  (forall x w, result_of (body x w) = Returned tt) ->
  forall l w, result_of (for_each l body w) = Returned tt.
Proof.
  intros Hbody. induction l as [|x l IH]; intros w; simpl; [reflexivity|].
  rewrite (bind_result _ _ _ tt) by apply Hbody. apply IH.
Qed.

Lemma bytes_bool_false b : bytes_bool b = false -> b = [].
Proof. destruct b; [reflexivity | discriminate]. Qed.

Lemma build_returns w :
  result_of (build_podman_image run CURRENT_DIR_PATH w) = Returned tt.
Proof.
  unfold build_podman_image, bind, logger_info, emit, subprocess_run, ret.
  rewrite has_nul_build. destruct (run (build_argv CURRENT_DIR_PATH) w).
  reflexivity.
Qed.

Lemma start_returns containers w :
  result_of (start_podman_containers run containers w) = Returned tt.
Proof.
  unfold start_podman_containers.
  rewrite (bind_result _ _ _ tt) by reflexivity.
  apply for_each_returns. intros _ w'. apply start_iteration.
Qed.

(** *** Every computation of the script threads the state *)

Lemma replay_app w l1 l2 :
  replay run w (l1 ++ l2) = replay run (replay run w l1) l2.
Proof. apply fold_left_app. Qed.

Lemma responses_app w l1 l2 :
  responses run w (l1 ++ l2)
  = responses run w l1 ++ responses run (replay run w l1) l2.
Proof.
  revert w. induction l1 as [|a l1 IH]; intros w; simpl; [reflexivity|].
  rewrite IH. reflexivity.
Qed.

Lemma threads_ret {T} (v : T) : threads run (ret v).
Proof. intros w. reflexivity. Qed.

Lemma threads_raise {T} e : threads run (raise (T := T) e).
Proof. intros w. reflexivity. Qed.

Lemma threads_emit r : threads run (emit (Log r)).
Proof. intros w. reflexivity. Qed.

Lemma threads_decode b : threads run (decode b).
Proof.
  intros w. unfold decode. destruct (decode_utf8 b); reflexivity.
Qed.

Lemma threads_subprocess_run a c : threads run (subprocess_run run a c).
Proof.
  intros w. unfold subprocess_run.
  destruct (has_nul a); [reflexivity|].
  destruct (run a w) as [r w'] eqn:E. unfold replay. simpl.
  rewrite E. reflexivity.
Qed.

Lemma threads_bind {T U} (m : M World T) (k : T -> M World U) :
  threads run m -> (forall v, threads run (k v)) -> threads run (bind m k).
Proof.
  intros Hm Hk w. specialize (Hm w). unfold bind.
  destruct (m w) as [[[v|e] w1] t1]; [|exact Hm].
  specialize (Hk v w1). destruct (k v w1) as [[r w2] t2].
  unfold world_of, trace_of in *. simpl in *.
  rewrite spawns_app, replay_app, <- Hm. exact Hk.
Qed.

Lemma threads_for_each {T} (body : T -> M World unit) l :
  (forall x, threads run (body x)) -> threads run (for_each l body).
Proof.
  intros Hbody. induction l as [|x l IH]; simpl.
  - apply threads_ret.
  - apply threads_bind; [apply Hbody | intros _; exact IH].
Qed.

(** Threading, by the structure of the computation. *)
Ltac threading :=
  repeat first
    [ apply threads_ret | apply threads_raise | apply threads_emit
    | apply threads_decode | apply threads_subprocess_run
    | apply threads_for_each; intros ?
    | apply threads_bind; [|intros ?]
    | match goal with
      | |- threads _ (if ?b then _ else _) => destruct b
      | |- threads _ (match ?x with _ => _ end) => destruct x
      end ].

Lemma threads_listing : threads run (_get_all_running_container_names run).
Proof.
  unfold _get_all_running_container_names, logger_info, logger_error.
  threading.
Qed.

Lemma threads_address name :
  threads run (_get_container_ip_address run name).
Proof.
  unfold _get_container_ip_address, logger_info, logger_error. threading.
Qed.

Lemma threads_report : threads run (print_podman_info run).
Proof.
  unfold print_podman_info, logger_info, logger_warning.
  apply threads_bind; [apply threads_emit | intros _].
  apply threads_bind; [apply threads_listing | intros containers].
  destruct (negb (list_bool containers)); [apply threads_emit|].
  apply threads_for_each. intros name.
  apply threads_bind; [apply threads_address | intros ip].
  apply threads_emit.
Qed.

Lemma threads_build : threads run (build_podman_image run CURRENT_DIR_PATH).
Proof. unfold build_podman_image, logger_info. threading. Qed.

Lemma threads_start containers :
  threads run (start_podman_containers run containers).
Proof. unfold start_podman_containers, logger_info. threading. Qed.

Lemma threads_stop : threads run (stop_podman_containers run).
Proof.
  unfold stop_podman_containers, logger_info.
  apply threads_bind; [apply threads_emit | intros _].
  apply threads_bind; [apply threads_listing | intros containers].
  threading.
Qed.

(** *** Returning when the answers are usable *)

Lemma returns_always {T} (m : M World T) (Q : T -> Prop) :
  (forall w, exists v, result_of (m w) = Returned v /\ Q v) ->
  returns_if_usable run m Q.
Proof. intros H w _. apply H. Qed.

Lemma returns_bind {T U} (m : M World T) (k : T -> M World U)
      (Q : T -> Prop) (Q' : U -> Prop) :
  threads run m ->
  returns_if_usable run m Q ->
  (forall v, Q v -> returns_if_usable run (k v) Q') ->
  returns_if_usable run (bind m k) Q'.
Proof.
  intros Ht Hm Hk w. specialize (Ht w). specialize (Hm w). unfold bind.
  destruct (m w) as [[r w1] t1].
  unfold result_of, world_of, trace_of in Ht, Hm. simpl in Ht, Hm.
  destruct r as [v|e].
  - assert (Hk1 := fun HQ => Hk v HQ w1).
    destruct (k v w1) as [[r2 w2] t2] eqn:E.
    unfold result_of, trace_of. simpl.
    rewrite spawns_app, responses_app, <- Ht. intros Hu.
    apply Forall_app in Hu. destruct Hu as [Hu1 Hu2].
    destruct (Hm Hu1) as (v' & Hv' & HQ). injection Hv' as <-.
    exact (Hk1 HQ Hu2).
  - unfold trace_of. simpl. intros Hu.
    destruct (Hm Hu) as (v' & Hv' & _). discriminate Hv'.
Qed.

Lemma returns_for_each {T} (body : T -> M World unit) l :
  (forall x, threads run (body x)) ->
  (forall x, In x l -> returns_if_usable run (body x) (fun _ => True)) ->
  returns_if_usable run (for_each l body) (fun _ => True).
Proof.
  intros Ht. induction l as [|x l IH]; intros Hbody; simpl.
  - apply returns_always. intros w. exists tt. split; [reflexivity | exact I].
  - apply returns_bind with (Q := fun _ => True).
    + apply Ht.
    + apply Hbody. left. reflexivity.
    + intros _ _. apply IH. intros y Hy. apply Hbody. right. exact Hy.
Qed.

Lemma returns_emit e : returns_if_usable run (emit e) (fun _ => True).
Proof.
  apply returns_always. intros w. exists tt. split; [reflexivity | exact I].
Qed.

Lemma returns_listing :
  returns_if_usable run (_get_all_running_container_names run)
                    (Forall (fun n : str => ~ In NUL n)).
Proof.
  intros w. rewrite (listing_spawns run w). simpl. intros Hu.
  inversion Hu as [|? ? [Hdec Hnul] _]; subst. simpl in Hdec, Hnul.
  specialize (Hdec eq_refl). specialize (Hnul eq_refl).
  destruct (bytes_bool (stderr (fst (run ps_argv w)))) eqn:E.
  - exists []. rewrite listing_on_error; [split; [reflexivity|constructor]|].
    intros H. rewrite H in E. discriminate.
  - apply bytes_bool_false in E.
    destruct (decode_utf8 (stdout (fst (run ps_argv w)))) as [text|] eqn:D.
    + eexists. rewrite (listing_on_success run w text E D).
      split; [reflexivity|]. exact (Hnul E text D).
    + destruct (Hdec E D).
Qed.

Lemma returns_address name :
  ~ In NUL name ->
  returns_if_usable run (_get_container_ip_address run name) (fun _ => True).
Proof.
  intros Hn w.
  assert (Hs : spawns (trace_of (_get_container_ip_address run name w))
               = [inspect_argv name]).
  { unfold _get_container_ip_address, bind, logger_info, logger_error,
      emit, subprocess_run, decode, ret, raise.
    rewrite has_nul_inspect, (no_nul name Hn).
    destruct (run (inspect_argv name) w) as [r w'].
    destruct (bytes_bool (stderr r)); [reflexivity|].
    destruct (decode_utf8 (stdout r)); reflexivity. }
  rewrite Hs. simpl. intros Hu.
  inversion Hu as [|? ? [Hdec _] _]; subst. simpl in Hdec.
  specialize (Hdec eq_refl).
  destruct (bytes_bool (stderr (fst (run (inspect_argv name) w)))) eqn:E.
  - eexists. rewrite address_on_error; [split; [reflexivity | exact I] | |].
    + exact Hn.
    + intros H. rewrite H in E. discriminate.
  - apply bytes_bool_false in E.
    destruct (decode_utf8 (stdout (fst (run (inspect_argv name) w))))
      as [text|] eqn:D.
    + exists text. rewrite (address_on_success run name w text Hn E D).
      split; [reflexivity | exact I].
    + destruct (Hdec E D).
Qed.

Lemma returns_report :
  returns_if_usable run (print_podman_info run) (fun _ => True).
Proof.
  unfold print_podman_info.
  apply returns_bind with (Q := fun _ => True);
    [apply threads_emit | apply returns_emit | intros _ _].
  apply returns_bind with (Q := Forall (fun n : str => ~ In NUL n));
    [apply threads_listing | apply returns_listing | intros names Hn].
  destruct (negb (list_bool names)); [apply returns_emit|].
  apply returns_for_each.
  - intros name. apply threads_bind; [apply threads_address | intros ip].
    apply threads_emit.
  - intros name Hin. rewrite Forall_forall in Hn.
    apply returns_bind with (Q := fun _ => True);
      [apply threads_address | apply returns_address, Hn, Hin | intros ip _].
    apply returns_emit.
Qed.

Lemma returns_stop :
  returns_if_usable run (stop_podman_containers run) (fun _ => True).
Proof.
  unfold stop_podman_containers.
  apply returns_bind with (Q := fun _ => True);
    [apply threads_emit | apply returns_emit | intros _ _].
  apply returns_bind with (Q := Forall (fun n : str => ~ In NUL n));
    [apply threads_listing | apply returns_listing | intros names Hn].
  apply returns_for_each.
  - intros name. unfold logger_info. threading.
  - intros name Hin. rewrite Forall_forall in Hn.
    apply returns_always. intros w. exists tt.
    split; [apply stop_iteration, Hn, Hin | exact I].
Qed.

Lemma returns_main namespace :
  returns_if_usable run (main run CURRENT_DIR_PATH namespace)
                    (fun code => code = 0%Z).
Proof.
  unfold main.
  apply returns_bind with (Q := fun _ => True).
  - destruct namespace as [build containers| |].
    + apply threads_bind; [destruct build|intros _].
      * apply threads_build.
      * apply threads_ret.
      * apply threads_start.
    + apply threads_ret.
    + apply threads_stop.
  - destruct namespace as [build containers| |].
    + apply returns_always. intros w. exists tt. split; [|exact I].
      destruct build.
      * rewrite (bind_result _ _ _ tt) by apply build_returns.
        apply start_returns.
      * rewrite (bind_result _ _ _ tt) by reflexivity. apply start_returns.
    + apply returns_always. intros w. exists tt. split; [reflexivity|exact I].
    + apply returns_stop.
  - intros _ _.
    apply returns_bind with (Q := fun _ => True);
      [apply threads_report | apply returns_report | intros _ _].
    apply returns_always. intros w. exists 0%Z. split; reflexivity.
Qed.

End ExitCode.

Arguments returns_main {World} run CURRENT_DIR_PATH namespace.
Arguments returns_address {World} run name _.
Arguments returns_listing {World} run.

(** C7, as the script has it: [main] reaches its end and returns 0 in
    every run, of every command, in which every answer the script
    received is usable: each output of a [podman ps] or [podman inspect]
    whose error stream is empty is valid UTF-8, and no name a listing
    gave holds a null character.  The return codes and the error
    streams are arbitrary, and so is every answer to [podman build],
    [run] and [stop].  The condition is on the processes of this very
    run, replayed from the state it started in; as everywhere in this
    file, the environment starts every process whose arguments are well
    formed. *)
Theorem main_returns_exit_code_0
  (World : Type) (run : argv -> World -> CompletedProcess * World)
  (CURRENT_DIR_PATH : Path) (namespace : Namespace) (w : World) :
  Forall usable
         (responses run w
            (spawns (trace_of (main run CURRENT_DIR_PATH namespace w)))) ->
  result_of (main run CURRENT_DIR_PATH namespace w) = Returned 0%Z.
Proof.
  intros H. destruct (returns_main run CURRENT_DIR_PATH namespace w H)
    as (code & Hr & ->).
  exact Hr.
Qed.

(** An answer of a concrete run is usable, by evaluation. *)
Ltac usable_answer :=
  split;
  [ intros Hq He; vm_compute in Hq;
    first [ discriminate Hq | discriminate He | vm_compute; discriminate ]
  | intros Ha He text Hd; vm_compute in Ha;
    first [ discriminate Ha | discriminate He
          | vm_compute in Hd; injection Hd as <-; vm_compute;
            repeat constructor; intuition discriminate ] ].

Ltac usable_answers :=
  match goal with
  | |- Forall usable ?l =>
    let l' := eval vm_compute in l in
    change (Forall usable l');
    repeat (apply Forall_cons; [usable_answer|]); apply Forall_nil
  end.

Lemma main_returns_exit_code_0_witness :
  let run := Scripted.run
               [Scripted.fails 125 (blit "Error: no Dockerfile");
                Scripted.fails 125 (blit "Error: image not known");
                Scripted.prints (Scripted.line "4f2a9c");
                Scripted.prints (Scripted.line "c1");
                Scripted.fails 125 (blit "Error: no such object: c1")] in
  let dir := [lit "/"; lit "opt"; lit "podman"] in
  result_of (main run dir (start true 2) 0%nat) = Returned 0%Z.
Proof.
  intros run dir.
  apply (main_returns_exit_code_0 _ run dir (start true 2) 0%nat).
  usable_answers.
Defined.

(** C7, as stated, fails: when the listing's output is not valid UTF-8
    (here the single byte [0xff]) and its error stream is empty, the
    [info] command does not reach the end of [main]: [decode] raises
    [UnicodeDecodeError] and nothing catches it. *)
Lemma main_raises_on_undecodable_listing :
  let run := Scripted.run [Scripted.prints [xff]] in
  let dir := [lit "/"; lit "opt"; lit "podman"] in
  result_of (main run dir info 0%nat) = Raised UnicodeDecodeError
  /\ result_of (main run dir info 0%nat) <> Returned 0%Z.
Proof. split; [reflexivity | discriminate]. Qed.

(** ** The dispatch of [main] *)

(** Case analysis on the outcome of every step of a sequence. *)
Ltac step_outcomes :=
  repeat (match goal with
          | |- context [match ?m ?w with (_, _) => _ end] =>
            destruct (m w) as [[[[]|?e] ?w] ?t]
          end; simpl).


(** ** The report is a function of what the runtime prints *)

Section ReportSimulation.

Variables W1 W2 : Type.
Variable run1 : argv -> W1 -> CompletedProcess * W1.
Variable run2 : argv -> W2 -> CompletedProcess * W2.
Variable R : W1 -> W2 -> Prop.

(** From related states the two runtimes answer the listing and every
    inspection with the same streams, and end in related states. *)
Hypothesis same_listing : forall w1 w2, R w1 w2 ->
  same_streams (fst (run1 ps_argv w1)) (fst (run2 ps_argv w2))
  /\ R (snd (run1 ps_argv w1)) (snd (run2 ps_argv w2)).
Hypothesis same_inspection : forall name w1 w2, R w1 w2 ->
  same_streams (fst (run1 (inspect_argv name) w1))
               (fst (run2 (inspect_argv name) w2))
  /\ R (snd (run1 (inspect_argv name) w1))
       (snd (run2 (inspect_argv name) w2)).

Lemma sim_ret {T} (v : T) : sim R (ret v) (ret v).
Proof. intros w1 w2 H. repeat split. exact H. Qed.

Lemma sim_emit e : sim R (emit e) (emit e).
Proof. intros w1 w2 H. repeat split. exact H. Qed.

Lemma sim_bind {T U} (m1 : M W1 T) (m2 : M W2 T)
      (k1 : T -> M W1 U) (k2 : T -> M W2 U) :
  sim R m1 m2 -> (forall v, sim R (k1 v) (k2 v)) ->
  sim R (bind m1 k1) (bind m2 k2).
Proof.
  intros Hm Hk w1 w2 H. destruct (Hm w1 w2 H) as (Hr & Ht & Hw).
  unfold bind.
  destruct (m1 w1) as [[r1 w1'] t1], (m2 w2) as [[r2 w2'] t2].
  unfold result_of, trace_of, world_of in Hr, Ht, Hw. simpl in Hr, Ht, Hw.
  subst r2 t2. destruct r1 as [v|e]; [|repeat split; exact Hw].
  destruct (Hk v w1' w2' Hw) as (Hr' & Ht' & Hw').
  destruct (k1 v w1') as [[r3 w3] t3], (k2 v w2') as [[r4 w4] t4].
  unfold result_of, trace_of, world_of in *. simpl in *.
  subst. repeat split. exact Hw'.
Qed.

Lemma sim_for_each {T} (body1 : T -> M W1 unit) (body2 : T -> M W2 unit) :
  (forall x, sim R (body1 x) (body2 x)) ->
  forall l, sim R (for_each l body1) (for_each l body2).
Proof.
  intros Hbody. induction l as [|x l IH]; simpl.
  - apply sim_ret.
  - apply sim_bind; [apply Hbody | intros _; exact IH].
Qed.

Lemma sim_listing :
  sim R (_get_all_running_container_names run1)
        (_get_all_running_container_names run2).
Proof.
  intros w1 w2 H. destruct (same_listing w1 w2 H) as [[Ho He] Hw].
  unfold _get_all_running_container_names, bind, logger_info, logger_error,
    emit, subprocess_run, decode, ret, raise.
  rewrite has_nul_ps.
  destruct (run1 ps_argv w1) as [r1 w1'], (run2 ps_argv w2) as [r2 w2'].
  simpl in Ho, He, Hw. rewrite Ho, He.
  destruct (bytes_bool (stderr r2)); [repeat split; exact Hw|].
  destruct (decode_utf8 (stdout r2)); repeat split; exact Hw.
Qed.

Lemma sim_address name :
  sim R (_get_container_ip_address run1 name)
        (_get_container_ip_address run2 name).
Proof.
  intros w1 w2 H. destruct (same_inspection name w1 w2 H) as [[Ho He] Hw].
  unfold _get_container_ip_address, bind, logger_info, logger_error,
    emit, subprocess_run, decode, ret, raise.
  destruct (has_nul (inspect_argv name)); [repeat split; exact H|].
  destruct (run1 (inspect_argv name) w1) as [r1 w1'],
           (run2 (inspect_argv name) w2) as [r2 w2'].
  simpl in Ho, He, Hw. rewrite Ho, He.
  destruct (bytes_bool (stderr r2)); [repeat split; exact Hw|].
  destruct (decode_utf8 (stdout r2)); repeat split; exact Hw.
Qed.

Lemma sim_report : sim R (print_podman_info run1) (print_podman_info run2).
Proof.
  unfold print_podman_info.
  apply sim_bind; [apply sim_emit|]. intros _.
  apply sim_bind; [apply sim_listing|]. intros containers.
  destruct (negb (list_bool containers)); [apply sim_emit|].
  apply sim_for_each. intros name.
  apply sim_bind; [apply sim_address|]. intros ip. apply sim_emit.
Qed.

Lemma sim_main_info dir1 dir2 :
  sim R (main run1 dir1 info) (main run2 dir2 info).
Proof.
  unfold main.
  apply sim_bind; [apply sim_ret|]. intros _.
  apply sim_bind; [apply sim_report|]. intros _. apply sim_ret.
Qed.

End ReportSimulation.

(** C9: the report holds no state of its own.  Take two invocations,
    each against its own runtime and from its own state, such that the
    runtimes answer alike from then on: the same output and error
    streams for the listing and for each inspection.  Then
    [print_podman_info], and so the [info] command, ends the same way
    and produces the same sequence of processes and log records in
    both. *)
Theorem report_is_reproducible
  (W1 W2 : Type)
  (run1 : argv -> W1 -> CompletedProcess * W1)
  (run2 : argv -> W2 -> CompletedProcess * W2)
  (R : W1 -> W2 -> Prop) (dir1 dir2 : Path) (w1 : W1) (w2 : W2) :
  (forall w1 w2, R w1 w2 ->
     same_streams (fst (run1 ps_argv w1)) (fst (run2 ps_argv w2))
     /\ R (snd (run1 ps_argv w1)) (snd (run2 ps_argv w2))) ->
  (forall name w1 w2, R w1 w2 ->
     same_streams (fst (run1 (inspect_argv name) w1))
                  (fst (run2 (inspect_argv name) w2))
     /\ R (snd (run1 (inspect_argv name) w1))
          (snd (run2 (inspect_argv name) w2))) ->
  R w1 w2 ->
  (result_of (print_podman_info run1 w1) = result_of (print_podman_info run2 w2)
   /\ trace_of (print_podman_info run1 w1)
      = trace_of (print_podman_info run2 w2))
  /\ (result_of (main run1 dir1 info w1) = result_of (main run2 dir2 info w2)
      /\ logs (trace_of (main run1 dir1 info w1))
         = logs (trace_of (main run2 dir2 info w2))).
Proof.
  intros Hl Hi H.
  destruct (sim_report W1 W2 run1 run2 R Hl Hi w1 w2 H) as (Hr & Ht & _).
  destruct (sim_main_info W1 W2 run1 run2 R Hl Hi dir1 dir2 w1 w2 H)
    as (Hr' & Ht' & _).
  rewrite Ht'. repeat split; assumption.
Qed.

Lemma report_is_reproducible_witness :
  let run1 := Scripted.run
                [Scripted.prints (Scripted.line "c1");
                 Scripted.prints (Scripted.line "10.88.0.2")] in
  let run2 := Scripted.run
                [{| returncode := 0; stdout := Scripted.line "c1";
                    stderr := [] |};
                 {| returncode := 3; stdout := Scripted.line "10.88.0.2";
                    stderr := [] |}] in
  let dir := [lit "/"; lit "opt"; lit "podman"] in
  (result_of (print_podman_info run1 0%nat)
   = result_of (print_podman_info run2 0%nat)
   /\ trace_of (print_podman_info run1 0%nat)
      = trace_of (print_podman_info run2 0%nat))
  /\ (result_of (main run1 dir info 0%nat) = result_of (main run2 dir info 0%nat)
      /\ logs (trace_of (main run1 dir info 0%nat))
         = logs (trace_of (main run2 dir info 0%nat))).
Proof.
  intros run1 run2 dir.
  apply (report_is_reproducible nat nat run1 run2 eq dir dir 0%nat 0%nat).
  - intros n m ->. split; [|reflexivity].
    do 2 (destruct m as [|m]; [split; reflexivity|]).
    destruct m; split; reflexivity.
  - intros name n m ->. split; [|reflexivity].
    do 2 (destruct m as [|m]; [split; reflexivity|]).
    destruct m; split; reflexivity.
  - reflexivity.
Defined.

(** ** Two runs of the model *)

(** [stop] with no container running: one listing for the stop, no
    [podman stop], one listing for the report, a warning. *)
Example stop_with_no_container :
  main (Scripted.run []) [lit "/"; lit "opt"; lit "podman"] stop 0%nat
  = (Returned 0%Z, 2%nat,
     [Log {| levelname := INFO; msg := "Stopping podman containers";
             args := [] |};
      Log {| levelname := INFO; msg := "Fetching all podman containers";
             args := [] |};
      Spawn ps_argv true;
      Log {| levelname := INFO; msg := "Fetching podman container info";
             args := [] |};
      Log {| levelname := INFO; msg := "Fetching all podman containers";
             args := [] |};
      Spawn ps_argv true;
      Log {| levelname := WARNING; msg := "No running containers found";
             args := [] |}]).
Proof. reflexivity. Qed.

(** [start --containers 2] when both containers come up. *)
Example start_two_containers :
  let run := Scripted.run
               [Scripted.prints (Scripted.line "4f2a9c");
                Scripted.prints (Scripted.line "77b01e");
                Scripted.prints (Scripted.line "c1" ++ Scripted.line "c2");
                Scripted.prints (Scripted.line "10.88.0.2");
                Scripted.prints (Scripted.line "10.88.0.3")] in
  let o := main run [lit "/"; lit "opt"; lit "podman"] (start false 2) 0%nat in
  result_of o = Returned 0%Z
  /\ spawns (trace_of o)
     = [run_argv; run_argv; ps_argv;
        inspect_argv (lit "c1"); inspect_argv (lit "c2")]
  /\ map args (filter (fun r => String.eqb (msg r) report_format)
                      (logs (trace_of o)))
     = [[VStr (lit "c1"); VStr (lit "10.88.0.2"); VStr USER; VStr PASSWD];
        [VStr (lit "c2"); VStr (lit "10.88.0.3"); VStr USER; VStr PASSWD]].
Proof. repeat split. Qed.

(** ** More on the Python primitives *)

Module PyMore.

(** Every text is, in one way, a list of newline-terminated pieces
    followed by an unterminated rest, and [split] finds them. *)
Lemma split_structure text :
  exists names rest,
    split LF text = names ++ [rest]
    /\ text = lines names ++ rest
    /\ Forall (fun n => ~ In LF n) names
    /\ ~ In LF rest.
Proof.
  induction text as [|c s (names & rest & Hs & Ht & Hn & Hr)].
  - exists [], []. repeat split; [constructor | intros []].
  - simpl. destruct (N.eqb_spec c LF) as [->|Hc].
    + exists ([] :: names), rest. rewrite Hs.
      repeat split; [simpl; f_equal; exact Ht | | exact Hr].
      constructor; [intros [] | exact Hn].
    + rewrite Hs. destruct names as [|n names]; simpl.
      * exists [], (c :: rest). simpl in Ht. subst s.
        repeat split; [constructor|].
        intros [H|H]; [congruence | exact (Hr H)].
      * exists ((c :: n) :: names), rest.
        repeat split; [simpl; f_equal; exact Ht | | exact Hr].
        inversion Hn as [|? ? Hn1 Hn2]; subst. constructor; [|exact Hn2].
        intros [H|H]; [congruence | exact (Hn1 H)].
Qed.

Lemma lstrip_removes_whitespace s :
  exists p, s = p ++ lstrip s /\ forallb isspace p = true.
Proof.
  induction s as [|c s (p & Hp & Hw)]; simpl.
  - exists []. split; reflexivity.
  - destruct (isspace c) eqn:E.
    + exists (c :: p). simpl. rewrite E, Hw. split; [f_equal; exact Hp|].
      reflexivity.
    + exists []. split; reflexivity.
Qed.

Lemma forallb_rev {T} (f : T -> bool) l :
  forallb f l = true -> forallb f (rev l) = true.
Proof.
  rewrite !forallb_forall. intros H x Hx. apply H, in_rev, Hx.
Qed.

Lemma rstrip_removes_whitespace s :
  exists q, s = rstrip s ++ q /\ forallb isspace q = true.
Proof.
  unfold rstrip. destruct (lstrip_removes_whitespace (rev s)) as (p & Hp & Hw).
  exists (rev p). split; [|apply forallb_rev, Hw].
  rewrite <- rev_app_distr, <- Hp, rev_involutive. reflexivity.
Qed.

Lemma lstrip_trimmed s : starts_with_space s = false -> lstrip s = s.
Proof. destruct s as [|c s]; simpl; [reflexivity | intros ->; reflexivity]. Qed.

(** ASCII octets decode to themselves. *)
Lemma decode_utf8_ascii b :
  is_ascii b = true -> decode_utf8 b = Some (map Byte.to_N b).
Proof.
  induction b as [|x b IH]; simpl; [reflexivity|].
  intros H. apply andb_true_iff in H. destruct H as [Hx Hb].
  rewrite Hx, (IH Hb). reflexivity.
Qed.

End PyMore.

(** X12: [strip] only removes whitespace, and only at the two ends: the
    string is a run of whitespace, the stripped string, and a run of
    whitespace; a string that is already trimmed is left as it is. *)
Theorem strip_removes_only_outer_whitespace (s : str) :
  (exists p q, s = p ++ strip s ++ q
               /\ forallb isspace p = true /\ forallb isspace q = true)
  /\ (is_trimmed s = true -> strip s = s).
Proof.
  split.
  - destruct (PyMore.lstrip_removes_whitespace s) as (p & Hp & Hwp).
    destruct (PyMore.rstrip_removes_whitespace (lstrip s)) as (q & Hq & Hwq).
    exists p, q. unfold strip. rewrite <- Hq. auto.
  - unfold is_trimmed, strip, rstrip, ends_with_space. intros H.
    apply andb_true_iff in H. destruct H as [H1 H2].
    apply negb_true_iff in H1, H2.
    rewrite (PyMore.lstrip_trimmed s H1), (PyMore.lstrip_trimmed _ H2).
    apply rev_involutive.
Qed.

(** ** The report, container by container *)

Section ReportRecords.

Variable World : Type.
Variable run : argv -> World -> CompletedProcess * World.

Lemma bind_outcome {T U} (m : M World T) (k : T -> M World U) w v :
  result_of (m w) = Returned v ->
  bind m k w
  = (result_of (k v (world_of (m w))), world_of (k v (world_of (m w))),
     trace_of (m w) ++ trace_of (k v (world_of (m w)))).
Proof.
  unfold bind. destruct (m w) as [[r w1] t1].
  unfold result_of, world_of, trace_of. simpl. intros ->.
  destruct (k v w1) as [[r2 w2] t2]. reflexivity.
Qed.

Lemma bind_raises {T U} (m : M World T) (k : T -> M World U) w e :
  result_of (m w) = Raised e ->
  bind m k w = (Raised e, world_of (m w), trace_of (m w)).
Proof.
  unfold bind. destruct (m w) as [[r w1] t1].
  unfold result_of, world_of, trace_of. simpl. intros ->. reflexivity.
Qed.

Lemma reports_app t1 t2 : reports (t1 ++ t2) = reports t1 ++ reports t2.
Proof. unfold reports. rewrite logs_app, filter_app. reflexivity. Qed.

Lemma listing_world w :
  world_of (_get_all_running_container_names run w) = snd (run ps_argv w).
Proof.
  unfold _get_all_running_container_names, bind, logger_info, logger_error,
    emit, subprocess_run, decode, ret, raise.
  rewrite has_nul_ps. destruct (run ps_argv w) as [r w'].
  destruct (bytes_bool (stderr r)); [reflexivity|].
  destruct (decode_utf8 (stdout r)); reflexivity.
Qed.

Lemma listing_reports w :
  reports (trace_of (_get_all_running_container_names run w)) = [].
Proof.
  unfold _get_all_running_container_names, bind, logger_info, logger_error,
    emit, subprocess_run, decode, ret, raise.
  rewrite has_nul_ps. destruct (run ps_argv w) as [r w'].
  destruct (bytes_bool (stderr r)); [reflexivity|].
  destruct (decode_utf8 (stdout r)); reflexivity.
Qed.

(** An inspection spawns [podman inspect] and nothing else, logs no
    report record and leaves the runtime where the process left it,
    however it ends. *)
Lemma address_effects name w :
  ~ In NUL name ->
  spawns (trace_of (_get_container_ip_address run name w))
  = [inspect_argv name]
  /\ reports (trace_of (_get_container_ip_address run name w)) = []
  /\ world_of (_get_container_ip_address run name w)
     = snd (run (inspect_argv name) w).
Proof.
  intros Hn.
  unfold _get_container_ip_address, bind, logger_info, logger_error,
    emit, subprocess_run, decode, ret, raise.
  rewrite has_nul_inspect, (no_nul name Hn).
  destruct (run (inspect_argv name) w) as [r w'].
  destruct (bytes_bool (stderr r)); [repeat split|].
  destruct (decode_utf8 (stdout r)); repeat split.
Qed.

(** One iteration of the report's loop when the inspection returns. *)
Lemma report_iteration name w ip :
  ~ In NUL name ->
  result_of (_get_container_ip_address run name w) = Returned ip ->
  (ip <- _get_container_ip_address run name ;;
   logger_info "Container `%s` - IP: `%s`, USER: `%s`, PASSWD: `%s`"
               [VStr name; VStr (strip ip); VStr USER; VStr PASSWD]) w
  = (Returned tt, snd (run (inspect_argv name) w),
     trace_of (_get_container_ip_address run name w)
     ++ [Log (report_record name (strip ip))]).
Proof.
  intros Hn Hip. rewrite (bind_outcome _ _ w ip) by exact Hip.
  destruct (address_effects name w Hn) as (_ & _ & Hw). rewrite Hw.
  reflexivity.
Qed.

(** An inspection returns when the name can be passed and the output
    can be decoded. *)
Lemma address_returns_if_decodes name w :
  ~ In NUL name ->
  output_decodes (fst (run (inspect_argv name) w)) ->
  exists ip, result_of (_get_container_ip_address run name w) = Returned ip.
Proof.
  intros Hn Hdec.
  destruct (bytes_bool (stderr (fst (run (inspect_argv name) w)))) eqn:E.
  - eexists. rewrite address_on_error; [reflexivity | exact Hn |].
    intros H. rewrite H in E. discriminate.
  - apply bytes_bool_false in E.
    destruct (decode_utf8 (stdout (fst (run (inspect_argv name) w))))
      as [text|] eqn:D.
    + exists text. rewrite (address_on_success run name w text Hn E D).
      reflexivity.
    + destruct (Hdec E D).
Qed.

(** The loop of the report when every inspection returns: one
    inspection and one record per container, in order; [P] relates each
    name, the state in which it is inspected and the address returned. *)
Lemma report_loop (P : str -> World -> str -> Prop) :
  (forall name w, ~ In NUL name -> exists ip,
      result_of (_get_container_ip_address run name w) = Returned ip
      /\ P name w ip) ->
  forall names w,
  Forall (fun n : str => ~ In NUL n) names ->
  exists ips,
    Forall2 (fun nw ip => P (fst nw) (snd nw) ip)
            (combine names (inspect_states run names w)) ips
    /\ result_of (for_each names (fun container_name =>
         ip <- _get_container_ip_address run container_name ;;
         logger_info "Container `%s` - IP: `%s`, USER: `%s`, PASSWD: `%s`"
                     [VStr container_name; VStr (strip ip); VStr USER;
                      VStr PASSWD]) w) = Returned tt
    /\ spawns (trace_of (for_each names (fun container_name =>
         ip <- _get_container_ip_address run container_name ;;
         logger_info "Container `%s` - IP: `%s`, USER: `%s`, PASSWD: `%s`"
                     [VStr container_name; VStr (strip ip); VStr USER;
                      VStr PASSWD]) w)) = map inspect_argv names
    /\ reports (trace_of (for_each names (fun container_name =>
         ip <- _get_container_ip_address run container_name ;;
         logger_info "Container `%s` - IP: `%s`, USER: `%s`, PASSWD: `%s`"
                     [VStr container_name; VStr (strip ip); VStr USER;
                      VStr PASSWD]) w))
       = map (fun p => report_record (fst p) (strip (snd p)))
             (combine names ips).
Proof.
  intros Haddr. induction names as [|name names IH]; intros w Hnames.
  - exists []. repeat split. constructor.
  - inversion Hnames as [|? ? Hn Hrest]; subst.
    destruct (Haddr name w Hn) as (ip & Hip & HP).
    destruct (address_effects name w Hn) as (Hs & Hr & _).
    simpl for_each.
    erewrite bind_returned
      by (apply report_iteration; [exact Hn | exact Hip]).
    destruct (IH (snd (run (inspect_argv name) w)) Hrest)
      as (ips & HF & Hres & Hsp & Hrep).
    exists (ip :: ips). split; [constructor; [exact HP | exact HF]|].
    project_outcome. split; [exact Hres|].
    rewrite !spawns_app, !reports_app, Hs, Hr, Hsp, Hrep.
    split; reflexivity.
Qed.

End ReportRecords.

Arguments bind_outcome {World T U} m k w v _.
Arguments bind_raises {World T U} m k w e _.
Arguments reports_app t1 t2 : clear implicits.
Arguments listing_world {World} run w.
Arguments listing_reports {World} run w.
Arguments address_effects {World} run name w _.
Arguments report_loop {World} run P _ names w _.
Arguments address_returns_if_decodes {World} run name w _ _.

(** X1: when the listing is empty, whether because the runtime lists no
    container or because the list call wrote to its error stream,
    [print_podman_info] inspects nothing: it spawns the listing's
    [podman ps] only, logs what the listing logged and then the warning,
    and returns. *)
Theorem report_of_empty_listing_warns
  (World : Type) (run : argv -> World -> CompletedProcess * World)
  (w : World) :
  result_of (_get_all_running_container_names run w) = Returned [] ->
  result_of (print_podman_info run w) = Returned tt
  /\ spawns (trace_of (print_podman_info run w)) = [ps_argv]
  /\ logs (trace_of (print_podman_info run w))
     = {| levelname := INFO; msg := "Fetching podman container info";
          args := [] |}
       :: logs (trace_of (_get_all_running_container_names run w))
       ++ [{| levelname := WARNING; msg := "No running containers found";
              args := [] |}].
Proof.
  intros H. unfold print_podman_info.
  erewrite bind_returned by reflexivity.
  rewrite (bind_outcome _ _ w [] H). project_outcome. simpl negb. cbv iota.
  unfold logger_warning, emit. project_outcome.
  simpl. rewrite spawns_app, logs_app, (listing_spawns run w).
  repeat split.
Qed.

Lemma report_of_empty_listing_warns_witness :
  let run := Scripted.run
               [Scripted.fails 125 (blit "Error: cannot connect to Podman")] in
  result_of (print_podman_info run 0%nat) = Returned tt
  /\ spawns (trace_of (print_podman_info run 0%nat)) = [ps_argv]
  /\ logs (trace_of (print_podman_info run 0%nat))
     = {| levelname := INFO; msg := "Fetching podman container info";
          args := [] |}
       :: logs (trace_of (_get_all_running_container_names run 0%nat))
       ++ [{| levelname := WARNING; msg := "No running containers found";
              args := [] |}].
Proof.
  intros run. apply (report_of_empty_listing_warns _ run 0%nat). reflexivity.
Defined.

Section ReportOutcomes.

Variable World : Type.
Variable run : argv -> World -> CompletedProcess * World.

(** The report when the listing returns and every inspection does. *)
Lemma report_of_listing (P : str -> World -> str -> Prop) w names :
  result_of (_get_all_running_container_names run w) = Returned names ->
  Forall (fun n : str => ~ In NUL n) names ->
  (forall name w', ~ In NUL name -> exists ip,
      result_of (_get_container_ip_address run name w') = Returned ip
      /\ P name w' ip) ->
  exists ips,
    Forall2 (fun nw ip => P (fst nw) (snd nw) ip)
            (combine names (inspect_states run names (snd (run ps_argv w))))
            ips
    /\ result_of (print_podman_info run w) = Returned tt
    /\ spawns (trace_of (print_podman_info run w))
       = ps_argv :: map inspect_argv names
    /\ reports (trace_of (print_podman_info run w))
       = map (fun p => report_record (fst p) (strip (snd p)))
             (combine names ips).
Proof.
  intros Hl Hnames Haddr. unfold print_podman_info.
  erewrite bind_returned by reflexivity.
  rewrite (bind_outcome _ _ w names Hl). project_outcome.
  rewrite (listing_world run w).
  destruct names as [|name names].
  - exists []. split; [constructor|].
    simpl negb. cbv iota. unfold logger_warning, emit. project_outcome.
    rewrite !spawns_app, !reports_app.
    rewrite (listing_spawns run w), (listing_reports run w).
    repeat split.
  - change (negb (list_bool (name :: names))) with false.
    match goal with
    | |- context [if false then ?a else ?b] =>
      change (if false then a else b) with b
    end.
    destruct (report_loop run P Haddr (name :: names)
                (snd (run ps_argv w)) Hnames)
      as (ips & HF & Hres & Hsp & Hrep).
    exists ips. split; [exact HF|]. split; [exact Hres|].
    rewrite !spawns_app, !reports_app.
    rewrite (listing_spawns run w), (listing_reports run w), Hsp, Hrep.
    split; reflexivity.
Qed.

End ReportOutcomes.

Arguments report_of_listing {World} run P w names _ _ _.



(** X3: an inspection that fails does not stop the report: when the
    listing returns and every inspection writes to its error stream (so
    every inspection is made: no name holds a null character), every
    container is still inspected and reported, with the address
    ["0.0.0.0"]. *)
Theorem report_shows_sentinel_for_failed_inspections
  (World : Type) (run : argv -> World -> CompletedProcess * World)
  (w : World) (names : list str) :
  result_of (_get_all_running_container_names run w) = Returned names ->
  Forall (fun n : str => ~ In NUL n) names ->
  (forall name w', stderr (fst (run (inspect_argv name) w')) <> []) ->
  result_of (print_podman_info run w) = Returned tt
  /\ spawns (trace_of (print_podman_info run w))
     = ps_argv :: map inspect_argv names
  /\ reports (trace_of (print_podman_info run w))
     = map (fun name => report_record name (lit "0.0.0.0")) names.
Proof.
  intros Hl Hnames Herr.
  destruct (report_of_listing run (fun _ _ ip => ip = lit "0.0.0.0")
              w names Hl Hnames) as (ips & HF & Hres & Hsp & Hrep).
  - intros name w' Hn. exists (lit "0.0.0.0").
    rewrite (address_on_error run name w' Hn (Herr name w')).
    split; reflexivity.
  - split; [exact Hres|]. split; [exact Hsp|]. rewrite Hrep.
    clear -HF. revert ips HF. generalize (snd (run ps_argv w)).
    induction names as [|name names IH]; intros w0 ips HF; simpl in HF.
    + inversion HF; subst. reflexivity.
    + inversion HF as [|? ip ? ips' Hip HF']. subst. simpl.
      f_equal. apply (IH _ ips' HF').
Qed.

Lemma report_shows_sentinel_for_failed_inspections_witness :
  let run := Stateless.run
               [("ps"%string,
                 Scripted.prints (Scripted.line "c1" ++ Scripted.line "c2"));
                ("inspect"%string,
                 Scripted.fails 125 (blit "Error: no such object"))] in
  result_of (print_podman_info run tt) = Returned tt
  /\ spawns (trace_of (print_podman_info run tt))
     = [ps_argv; inspect_argv (lit "c1"); inspect_argv (lit "c2")]
  /\ reports (trace_of (print_podman_info run tt))
     = [report_record (lit "c1") (lit "0.0.0.0");
        report_record (lit "c2") (lit "0.0.0.0")].
Proof.
  intros run.
  apply (report_shows_sentinel_for_failed_inspections _ run tt
           [lit "c1"; lit "c2"]).
  - reflexivity.
  - repeat constructor; vm_compute; intuition discriminate.
  - intros name w'. vm_compute. discriminate.
Defined.

(** ** Undecodable output *)

Section Undecodable.

Variable World : Type.
Variable run : argv -> World -> CompletedProcess * World.

Lemma address_on_undecodable name w :
  ~ In NUL name ->
  stderr (fst (run (inspect_argv name) w)) = [] ->
  decode_utf8 (stdout (fst (run (inspect_argv name) w))) = None ->
  result_of (_get_container_ip_address run name w)
  = Raised UnicodeDecodeError.
Proof.
  intros Hn He Hd.
  unfold _get_container_ip_address, bind, logger_info, emit,
    subprocess_run, decode.
  rewrite has_nul_inspect, (no_nul name Hn).
  destruct (run (inspect_argv name) w) as [r w']. simpl in *.
  rewrite He, Hd. reflexivity.
Qed.

End Undecodable.

Arguments address_on_undecodable {World} run name w _ _ _.

(** X4: an inspection whose output cannot be decoded ends the report where
    it stands.  When the first listed container is inspected (its name
    holds no null character) with an empty error stream and an output
    that is not UTF-8,
    [print_podman_info] raises [UnicodeDecodeError]: no record is
    logged, and the containers listed after it are not inspected. *)
Theorem report_stops_at_undecodable_inspection
  (World : Type) (run : argv -> World -> CompletedProcess * World)
  (w : World) (name : str) (rest : list str) :
  result_of (_get_all_running_container_names run w)
  = Returned (name :: rest) ->
  ~ In NUL name ->
  stderr (fst (run (inspect_argv name) (snd (run ps_argv w)))) = [] ->
  decode_utf8 (stdout (fst (run (inspect_argv name) (snd (run ps_argv w)))))
  = None ->
  result_of (print_podman_info run w) = Raised UnicodeDecodeError
  /\ spawns (trace_of (print_podman_info run w))
     = [ps_argv; inspect_argv name]
  /\ reports (trace_of (print_podman_info run w)) = [].
Proof.
  intros Hl Hn He Hd.
  assert (Ha := address_on_undecodable run name _ Hn He Hd).
  unfold print_podman_info.
  erewrite bind_returned by reflexivity.
  rewrite (bind_outcome _ _ w _ Hl). project_outcome.
  change (negb (list_bool (name :: rest))) with false.
  match goal with
  | |- context [if false then ?a else ?b] =>
    change (if false then a else b) with b
  end.
  rewrite (listing_world run w). simpl for_each.
  rewrite (bind_raises _ _ _ UnicodeDecodeError);
    [|rewrite (bind_raises _ _ _ UnicodeDecodeError Ha); reflexivity].
  rewrite (bind_raises _ _ _ UnicodeDecodeError Ha). project_outcome.
  destruct (address_effects run name (snd (run ps_argv w)) Hn)
    as (Hs & Hr & _).
  rewrite !spawns_app, !reports_app.
  rewrite (listing_spawns run w), (listing_reports run w), Hs, Hr.
  repeat split.
Qed.

Lemma report_stops_at_undecodable_inspection_witness :
  let run := Scripted.run
               [Scripted.prints (Scripted.line "c1" ++ Scripted.line "c2");
                Scripted.prints [xff; xfe]] in
  result_of (print_podman_info run 0%nat) = Raised UnicodeDecodeError
  /\ spawns (trace_of (print_podman_info run 0%nat))
     = [ps_argv; inspect_argv (lit "c1")]
  /\ reports (trace_of (print_podman_info run 0%nat)) = [].
Proof.
  intros run.
  apply (report_stops_at_undecodable_inspection _ run 0%nat
           (lit "c1") [lit "c2"]);
    [reflexivity | vm_compute; intuition discriminate
     | reflexivity | reflexivity].
Defined.

(** X5: under [stop], a listing that cannot be decoded stops nothing and
    reports nothing: [main] raises [UnicodeDecodeError], and its trace
    is the first two log records and the [podman ps]. *)
Theorem stop_raises_on_undecodable_listing
  (World : Type) (run : argv -> World -> CompletedProcess * World)
  (CURRENT_DIR_PATH : Path) (w : World) :
  stderr (fst (run ps_argv w)) = [] ->
  decode_utf8 (stdout (fst (run ps_argv w))) = None ->
  main run CURRENT_DIR_PATH stop w
  = (Raised UnicodeDecodeError, snd (run ps_argv w),
     [Log {| levelname := INFO; msg := "Stopping podman containers";
             args := [] |};
      Log {| levelname := INFO; msg := "Fetching all podman containers";
             args := [] |};
      Spawn ps_argv true]).
Proof.
  intros He Hd.
  unfold main, stop_podman_containers, _get_all_running_container_names,
    bind, logger_info, emit, subprocess_run, decode.
  rewrite has_nul_ps.
  destruct (run ps_argv w) as [r w']. simpl in *. rewrite He, Hd.
  reflexivity.
Qed.

Lemma stop_raises_on_undecodable_listing_witness :
  let run := Scripted.run [Scripted.prints [xc3]] in
  spawns (trace_of (main run [lit "/"; lit "opt"] stop 0%nat)) = [ps_argv]
  /\ result_of (main run [lit "/"; lit "opt"] stop 0%nat)
     = Raised UnicodeDecodeError.
Proof.
  intros run.
  rewrite (stop_raises_on_undecodable_listing _ run [lit "/"; lit "opt"]
             0%nat eq_refl eq_refl).
  split; reflexivity.
Defined.

(** ** Edge cases of the lifecycle operations *)

(** X6: a count that is zero or negative starts nothing:
    [start_podman_containers] logs the count, spawns no process, leaves
    the runtime as it is and returns. *)
Theorem start_with_nonpositive_count_is_a_no_op
  (World : Type) (run : argv -> World -> CompletedProcess * World)
  (containers : Z) (w : World) :
  (containers <= 0)%Z ->
  start_podman_containers run containers w
  = (Returned tt, w,
     [Log {| levelname := INFO; msg := "Starting %d podman containers";
             args := [VInt containers] |}]).
Proof.
  intros H. unfold start_podman_containers, range.
  replace (Z.to_nat containers) with 0%nat by lia. reflexivity.
Qed.

Lemma start_with_nonpositive_count_is_a_no_op_witness :
  start_podman_containers (Scripted.run []) (-2) 0%nat
  = (Returned tt, 0%nat,
     [Log {| levelname := INFO; msg := "Starting %d podman containers";
             args := [VInt (-2)] |}]).
Proof.
  apply (start_with_nonpositive_count_is_a_no_op _ (Scripted.run []) (-2)).
  lia.
Defined.

(** X7: with an empty error stream and a decodable output, the listing
    loses exactly the text after the last newline: the output is the
    returned names, each followed by a newline, and then a rest without
    newline; no returned name contains a newline. *)
Theorem listing_keeps_all_terminated_names
  (World : Type) (run : argv -> World -> CompletedProcess * World)
  (w : World) (text : str) :
  stderr (fst (run ps_argv w)) = [] ->
  decode_utf8 (stdout (fst (run ps_argv w))) = Some text ->
  exists names rest,
    result_of (_get_all_running_container_names run w) = Returned names
    /\ text = lines names ++ rest
    /\ Forall (fun n => ~ In LF n) names
    /\ ~ In LF rest.
Proof.
  intros He Hd.
  destruct (PyMore.split_structure text) as (names & rest & Hs & Ht & Hn & Hr).
  exists names, rest. split; [|auto].
  rewrite (listing_on_success run w text He Hd).
  unfold result_of. simpl.
  rewrite Hs, PyFacts.slice_to_minus_1_last. reflexivity.
Qed.

Lemma listing_keeps_all_terminated_names_witness :
  let run := Scripted.run
               [Scripted.prints (Scripted.line "c1" ++ [bLF] ++ blit "c3")] in
  exists names rest,
    result_of (_get_all_running_container_names run 0%nat) = Returned names
    /\ lit "c1" ++ [LF; LF] ++ lit "c3" = lines names ++ rest
    /\ Forall (fun n => ~ In LF n) names
    /\ ~ In LF rest.
Proof.
  intros run.
  apply (listing_keeps_all_terminated_names _ run 0%nat); reflexivity.
Defined.

(** ** ASCII output *)

Lemma in_lines c n names : In c n -> In n names -> In c (lines names).
Proof.
  intros Hc Hn. unfold lines. apply in_concat.
  exists (n ++ [LF]). split.
  - apply in_map_iff. exists n. split; [reflexivity | exact Hn].
  - apply in_or_app. left. exact Hc.
Qed.

(** A character that is not in the text is in none of the names. *)
Lemma listing_names_without c text :
  ~ In c text ->
  Forall (fun n : str => ~ In c n) (slice_to_minus_1 (split LF text)).
Proof.
  intros Hc.
  destruct (PyMore.split_structure text) as (names & rest & Hs & Ht & _).
  rewrite Hs, PyFacts.slice_to_minus_1_last. apply Forall_forall.
  intros n Hn Hin. apply Hc. rewrite Ht. apply in_or_app. left.
  exact (in_lines c n names Hin Hn).
Qed.

Lemma to_N_zero x : Byte.to_N x = 0%N -> x = x00.
Proof.
  intros H. assert (Hx := Byte.of_to_N x). rewrite H in Hx.
  simpl in Hx. congruence.
Qed.

Lemma ascii_without_nul b :
  is_ascii b = true -> ~ In x00 b ->
  exists text, decode_utf8 b = Some text /\ ~ In NUL text.
Proof.
  intros Ha Hn. exists (map Byte.to_N b).
  split; [apply PyMore.decode_utf8_ascii, Ha|].
  intros Hin. apply in_map_iff in Hin. destruct Hin as (x & Hx & Hin).
  apply to_N_zero in Hx. subst x. exact (Hn Hin).
Qed.

(** X8: a run in which every output of a [podman ps] or [podman inspect]
    is ASCII without a null byte never fails on its answers: [main]
    returns 0, for every command, whatever the return codes and the
    error streams.  The condition is on the processes of this very run,
    replayed from the state it started in. *)
Theorem main_returns_0_on_ascii_output
  (World : Type) (run : argv -> World -> CompletedProcess * World)
  (CURRENT_DIR_PATH : Path) (namespace : Namespace) (w : World) :
  Forall (fun ar => is_query (fst ar) = true ->
                    is_ascii (stdout (snd ar)) = true
                    /\ ~ In x00 (stdout (snd ar)))
         (responses run w
            (spawns (trace_of (main run CURRENT_DIR_PATH namespace w)))) ->
  result_of (main run CURRENT_DIR_PATH namespace w) = Returned 0%Z.
Proof.
  intros H.
  destruct (returns_main run CURRENT_DIR_PATH namespace w) as (code & Hr & ->);
    [|exact Hr].
  revert H. apply Forall_impl. intros [a r] Har. simpl in Har. split; simpl.
  - intros Hq _. destruct (Har Hq) as [Ha Hn].
    destruct (ascii_without_nul _ Ha Hn) as (text & Hd & _).
    rewrite Hd. discriminate.
  - intros -> _ text Hd. destruct (Har eq_refl) as [Ha Hn].
    destruct (ascii_without_nul _ Ha Hn) as (text' & Hd' & Hnul).
    rewrite Hd in Hd'. injection Hd' as <-.
    apply listing_names_without, Hnul.
Qed.

Lemma main_returns_0_on_ascii_output_witness :
  let run := Scripted.run
               [Scripted.prints (Scripted.line "c1" ++ Scripted.line "c2");
                Scripted.fails 125 (blit "Error: no container c1");
                Scripted.prints (Scripted.line "c2");
                Scripted.prints (Scripted.line "c2");
                {| returncode := 125; stdout := Scripted.line "<no value>";
                   stderr := [] |}] in
  result_of (main run [lit "/"; lit "opt"] stop 0%nat) = Returned 0%Z.
Proof.
  intros run.
  apply (main_returns_0_on_ascii_output _ run [lit "/"; lit "opt"] stop
           0%nat).
  match goal with
  | |- Forall ?P ?l =>
    let l' := eval vm_compute in l in change (Forall P l')
  end.
  repeat (apply Forall_cons;
          [intros Hq; vm_compute in Hq;
           first [ discriminate Hq
                 | split; [reflexivity | vm_compute; intuition discriminate] ]
          |]).
  apply Forall_nil.
Defined.

(** ** What each command spawns *)

Section Spawned.

Variable World : Type.
Variable run : argv -> World -> CompletedProcess * World.
Variable CURRENT_DIR_PATH : Path.

Lemma listing_only_queries w :
  Forall event_is_query (trace_of (_get_all_running_container_names run w)).
Proof.
  unfold _get_all_running_container_names, bind, logger_info, logger_error,
    emit, subprocess_run, decode, ret, raise.
  rewrite has_nul_ps. destruct (run ps_argv w) as [r w'].
  destruct (bytes_bool (stderr r));
    [|destruct (decode_utf8 (stdout r))];
    repeat constructor.
Qed.

Lemma address_only_queries name w :
  Forall event_is_query (trace_of (_get_container_ip_address run name w)).
Proof.
  unfold _get_container_ip_address, bind, logger_info, logger_error,
    emit, subprocess_run, decode, ret, raise.
  destruct (has_nul (inspect_argv name)); [repeat constructor|].
  destruct (run (inspect_argv name) w) as [r w'].
  destruct (bytes_bool (stderr r));
    [|destruct (decode_utf8 (stdout r))];
    repeat constructor.
Qed.

Lemma report_only_queries w :
  Forall event_is_query (trace_of (print_podman_info run w)).
Proof.
  unfold print_podman_info.
  apply bind_trace_all; [repeat constructor|].
  intros _ w1. apply bind_trace_all; [apply listing_only_queries|].
  intros containers w2. destruct (negb (list_bool containers)).
  { repeat constructor. }
  apply for_each_trace_all. intros name w3.
  apply bind_trace_all; [apply address_only_queries|].
  intros ip w4. repeat constructor.
Qed.

Lemma queries_of_trace t :
  Forall event_is_query t -> Forall (fun a => is_query a = true) (spawns t).
Proof.
  induction 1 as [|[a c|r] t He _ IH]; simpl; [constructor| |exact IH].
  constructor; [exact He | exact IH].
Qed.

Lemma bind_ret_trace {T U} (m : M World T) (v : U) w :
  trace_of ((m ;; ret v) w) = trace_of (m w).
Proof.
  unfold bind, ret. destruct (m w) as [[[x|e] w1] t1]; [|reflexivity].
  unfold trace_of. simpl. apply app_nil_r.
Qed.

Lemma for_each_world {T} (body : T -> M World unit)
      (step : World -> T -> World) :
  (forall x w, result_of (body x w) = Returned tt
               /\ world_of (body x w) = step w x) ->
  forall l w, world_of (for_each l body w) = fold_left step l w.
Proof.
  intros Hbody. induction l as [|x l IH]; intros w; simpl; [reflexivity|].
  destruct (Hbody x w) as [Hr Hw].
  rewrite (bind_outcome _ _ w tt Hr). project_outcome.
  rewrite IH, Hw. reflexivity.
Qed.

Lemma for_each_world_on {T} (Q : T -> Prop) (body : T -> M World unit)
      (step : World -> T -> World) :
  (forall x w, Q x -> result_of (body x w) = Returned tt
                      /\ world_of (body x w) = step w x) ->
  forall l w, Forall Q l ->
    world_of (for_each l body w) = fold_left step l w.
Proof.
  intros Hbody. induction l as [|x l IH]; intros w HQ; simpl; [reflexivity|].
  inversion HQ as [|? ? Hx Hl]; subst.
  destruct (Hbody x w Hx) as [Hr Hw].
  rewrite (bind_outcome _ _ w tt Hr). project_outcome.
  rewrite (IH _ Hl), Hw. reflexivity.
Qed.

Lemma start_iteration_world w :
  world_of ((logger_info "Starting container with image `%s`"
                         [VStr IMAGE_NAME] ;;
             _ <- subprocess_run run run_argv false ;;
             ret tt) w) = snd (run run_argv w).
Proof.
  unfold bind, logger_info, emit, subprocess_run, ret.
  rewrite has_nul_run. destruct (run run_argv w) as [r w']. reflexivity.
Qed.

Lemma stop_iteration_world container_name w :
  ~ In NUL container_name ->
  world_of ((logger_info "Stopping container `%s`" [VStr container_name] ;;
             _ <- subprocess_run run (stop_argv container_name) false ;;
             ret tt) w) = snd (run (stop_argv container_name) w).
Proof.
  intros Hn. unfold bind, logger_info, emit, subprocess_run, ret.
  rewrite has_nul_stop, (no_nul _ Hn).
  destruct (run (stop_argv container_name) w) as [r w']. reflexivity.
Qed.

(** What [start_podman_containers] leaves behind. *)
Lemma start_outcome containers w :
  result_of (start_podman_containers run containers w) = Returned tt
  /\ world_of (start_podman_containers run containers w)
     = fold_left (fun x _ => snd (run run_argv x)) (range containers) w
  /\ spawns (trace_of (start_podman_containers run containers w))
     = repeat run_argv (Z.to_nat containers).
Proof.
  unfold start_podman_containers.
  erewrite bind_returned by reflexivity. project_outcome.
  match goal with
  | |- context [for_each _ ?body] =>
    destruct (for_each_spawns body (fun _ => run_argv)
                (fun _ w' => start_iteration run w')
                (range containers) w) as [Hr Hs];
    assert (Hw := for_each_world body
                    (fun x (_ : Z) => snd (run run_argv x))
                    (fun _ w' => conj (proj1 (start_iteration run w'))
                                      (start_iteration_world w'))
                    (range containers) w)
  end.
  split; [exact Hr|]. split; [exact Hw|].
  rewrite spawns_app, Hs, map_const, range_length. reflexivity.
Qed.

(** What [stop_podman_containers] leaves behind when the listing
    returns. *)
Lemma stop_outcome w names :
  result_of (_get_all_running_container_names run w) = Returned names ->
  Forall (fun n : str => ~ In NUL n) names ->
  result_of (stop_podman_containers run w) = Returned tt
  /\ world_of (stop_podman_containers run w)
     = fold_left (fun x name => snd (run (stop_argv name) x)) names
                 (snd (run ps_argv w))
  /\ spawns (trace_of (stop_podman_containers run w))
     = ps_argv :: map stop_argv names.
Proof.
  intros Hl Hn. unfold stop_podman_containers.
  erewrite bind_returned by reflexivity.
  rewrite (bind_outcome _ _ w names Hl). project_outcome.
  rewrite (listing_world run w).
  match goal with
  | |- context [for_each _ ?body] =>
    destruct (for_each_spawns_on (fun n : str => ~ In NUL n) body stop_argv
                (fun name w' => stop_iteration run name w') names
                (snd (run ps_argv w)) Hn) as [Hr Hs];
    assert (Hw := for_each_world_on (fun n : str => ~ In NUL n) body
                    (fun x name => snd (run (stop_argv name) x))
                    (fun name w' H =>
                       conj (proj1 (stop_iteration run name w' H))
                            (stop_iteration_world name w' H))
                    names (snd (run ps_argv w)) Hn)
  end.
  split; [exact Hr|]. split; [exact Hw|].
  rewrite !spawns_app, (listing_spawns run w), Hs. reflexivity.
Qed.

Lemma build_outcome w :
  build_podman_image run CURRENT_DIR_PATH w
  = (Returned tt, snd (run (build_argv CURRENT_DIR_PATH) w),
     [Log {| levelname := INFO; msg := "Building image `%s`";
             args := [VStr IMAGE_NAME] |};
      Spawn (build_argv CURRENT_DIR_PATH) false]).
Proof.
  unfold build_podman_image, bind, logger_info, emit, subprocess_run, ret.
  rewrite has_nul_build.
  destruct (run (build_argv CURRENT_DIR_PATH) w). reflexivity.
Qed.

End Spawned.

Arguments report_only_queries {World} run w.
Arguments queries_of_trace t _ : clear implicits.
Arguments bind_ret_trace {World T U} m v w.
Arguments start_outcome {World} run containers w.
Arguments stop_outcome {World} run w names _ _.
Arguments build_outcome {World} run CURRENT_DIR_PATH w.

(** X9: the [info] command only reads: every process [main] spawns under
    [info] is a [podman ps] or a [podman inspect], so none of them is
    the [podman run], a [podman stop] or the [podman build] of the other
    commands; this holds however the command ends. *)
Theorem info_only_queries
  (World : Type) (run : argv -> World -> CompletedProcess * World)
  (CURRENT_DIR_PATH : Path) (w : World) :
  Forall (fun a => is_query a = true)
         (spawns (trace_of (main run CURRENT_DIR_PATH info w)))
  /\ forall a, In a (spawns (trace_of (main run CURRENT_DIR_PATH info w))) ->
       a <> run_argv
       /\ (forall name, a <> stop_argv name)
       /\ (forall dir, a <> build_argv dir).
Proof.
  assert (H : Forall (fun a => is_query a = true)
                (spawns (trace_of (main run CURRENT_DIR_PATH info w)))).
  { unfold main. erewrite bind_returned by reflexivity. project_outcome.
    rewrite bind_ret_trace. apply queries_of_trace, report_only_queries. }
  split; [exact H|].
  intros a Ha. rewrite Forall_forall in H. specialize (H a Ha).
  repeat split; intros; intros ->; discriminate H.
Qed.

(** X10: under [start], the processes come in a fixed order, each started in
    the state the one before left: the [podman build] when [--build] is
    set and never otherwise, then [podman run] as many times as the
    count (none for a count below 1), then the processes of the report,
    which runs in the state the last of them left. *)
Theorem start_spawns_build_runs_report
  (World : Type) (run : argv -> World -> CompletedProcess * World)
  (CURRENT_DIR_PATH : Path) (build : bool) (containers : Z) (w : World) :
  let w1 := if build then snd (run (build_argv CURRENT_DIR_PATH) w) else w in
  let w2 := fold_left (fun x _ => snd (run run_argv x)) (range containers) w1 in
  spawns (trace_of (main run CURRENT_DIR_PATH (start build containers) w))
  = (if build then [build_argv CURRENT_DIR_PATH] else [])
    ++ repeat run_argv (Z.to_nat containers)
    ++ spawns (trace_of (print_podman_info run w2)).
Proof.
  intros w1 w2. unfold main.
  destruct (start_outcome run containers w1) as (Hr & Hw & Hs).
  assert (Hpre :
    (((if build then build_podman_image run CURRENT_DIR_PATH else ret tt) ;;
      start_podman_containers run containers) w)
    = (Returned tt, w2,
       (if build
        then trace_of (build_podman_image run CURRENT_DIR_PATH w)
        else [])
       ++ trace_of (start_podman_containers run containers w1))).
  { subst w2. rewrite <- Hw, <- Hr. subst w1. destruct build.
    - erewrite bind_returned by apply build_outcome.
      rewrite build_outcome. reflexivity.
    - erewrite bind_returned by reflexivity. reflexivity. }
  erewrite bind_returned by exact Hpre. project_outcome.
  rewrite bind_ret_trace, !spawns_app, Hs.
  destruct build; [rewrite build_outcome|]; reflexivity.
Qed.



Lemma strip_removes_only_outer_whitespace_witness :
  is_trimmed (lit "10.88.0.2") = true
  /\ strip (lit "10.88.0.2") = lit "10.88.0.2".
Proof.
  split; [reflexivity|].
  exact (proj2 (strip_removes_only_outer_whitespace (lit "10.88.0.2"))
               eq_refl).
Defined.

Lemma info_only_queries_witness :
  let run := Scripted.run
               [Scripted.prints (Scripted.line "c1");
                Scripted.prints (Scripted.line "10.88.0.2")] in
  In (inspect_argv (lit "c1"))
     (spawns (trace_of (main run [lit "/"; lit "opt"] info 0%nat)))
  /\ inspect_argv (lit "c1") <> run_argv.
Proof.
  intros run.
  assert (H : In (inspect_argv (lit "c1"))
                 (spawns (trace_of (main run [lit "/"; lit "opt"] info
                                         0%nat))))
    by (right; left; reflexivity).
  split; [exact H|].
  exact (proj1 (proj2 (info_only_queries _ run [lit "/"; lit "opt"] 0%nat)
                      _ H)).
Defined.
